(** * day15-pynautobot-api.py: get-or-create provisioning against Nautobot

    A shallow embedding of the script [day15-pynautobot-api.py].  The
    script talks to a remote Nautobot instance through pynautobot's
    collection accessors [get] and [create]; here the remote instance is
    an explicit store, every API call and every printed line is appended
    to a log, and the three ways a Python computation can end (a value,
    [sys.exit], an uncaught exception) are the three constructors of
    [Outcome]. *)

From Stdlib Require Import List String Ascii Bool ZArith NArith Lia.
Import ListNotations.
Open Scope string_scope.
Open Scope N_scope.

(** ** Values exchanged with the API *)

Definition Id := N.

(** What the script puts in a dict literal or a keyword argument: a
    string, the identifier of another record, or a list of strings. *)
Inductive Value :=
| VStr (s : string)
| VRef (i : Id)
| VList (l : list string).

Definition Value_eqb (a b : Value) : bool :=
  match a, b with
  | VStr s, VStr t => String.eqb s t
  | VRef i, VRef j => N.eqb i j
  | VList l, VList m =>
      if list_eq_dec string_dec l m then true else false
  | _, _ => false
  end.

(** A Python dict literal or keyword arguments, in source order. *)
Definition Dict := list (string * Value).

Fixpoint lookup (k : string) (d : Dict) : option Value :=
  match d with
  | [] => None
  | (k', v) :: d' => if String.eqb k k' then Some v else lookup k d'
  end.

(** ** The six collections and their records *)

Inductive Collection :=
| LocationTypes | Locations | Manufacturers | DeviceTypes | Roles | Devices.

Record LocationType := {
  lt_id : Id;
  lt_name : string;
  lt_description : string;
  lt_content_types : list string }.

Record Location := {
  loc_id : Id;
  loc_name : string;
  loc_location_type : Id;
  loc_status : string }.

Record Manufacturer := {
  man_id : Id;
  man_name : string }.

Record DeviceType := {
  dt_id : Id;
  dt_model : string;
  dt_manufacturer : Id }.

Record Role := {
  r_id : Id;
  r_name : string;
  r_description : string;
  r_content_types : list string }.

Record Device := {
  dev_id : Id;
  dev_name : string;
  dev_device_type : Id;
  dev_role : Id;
  dev_location : Id;
  dev_status : string }.

(** The record type served by each collection. *)
Definition Rec (c : Collection) : Type :=
  match c with
  | LocationTypes => LocationType
  | Locations => Location
  | Manufacturers => Manufacturer
  | DeviceTypes => DeviceType
  | Roles => Role
  | Devices => Device
  end.

(** ** The remote instance *)

Record Store := {
  location_types : list LocationType;
  locations : list Location;
  manufacturers : list Manufacturer;
  device_types : list DeviceType;
  roles : list Role;
  devices : list Device;
  next_id : Id }.

Definition items (c : Collection) (s : Store) : list (Rec c) :=
  match c with
  | LocationTypes => location_types s
  | Locations => locations s
  | Manufacturers => manufacturers s
  | DeviceTypes => device_types s
  | Roles => roles s
  | Devices => devices s
  end.

(** The store after the server has saved record [a] in collection [c]:
    the record goes last and the identifier counter moves on. *)
Definition stored (c : Collection) : Rec c -> Store -> Store :=
  match c with
  | LocationTypes => fun a s =>
      {| location_types := location_types s ++ [a]; locations := locations s;
         manufacturers := manufacturers s; device_types := device_types s;
         roles := roles s; devices := devices s; next_id := N.succ (next_id s) |}
  | Locations => fun a s =>
      {| location_types := location_types s; locations := locations s ++ [a];
         manufacturers := manufacturers s; device_types := device_types s;
         roles := roles s; devices := devices s; next_id := N.succ (next_id s) |}
  | Manufacturers => fun a s =>
      {| location_types := location_types s; locations := locations s;
         manufacturers := manufacturers s ++ [a]; device_types := device_types s;
         roles := roles s; devices := devices s; next_id := N.succ (next_id s) |}
  | DeviceTypes => fun a s =>
      {| location_types := location_types s; locations := locations s;
         manufacturers := manufacturers s; device_types := device_types s ++ [a];
         roles := roles s; devices := devices s; next_id := N.succ (next_id s) |}
  | Roles => fun a s =>
      {| location_types := location_types s; locations := locations s;
         manufacturers := manufacturers s; device_types := device_types s;
         roles := roles s ++ [a]; devices := devices s; next_id := N.succ (next_id s) |}
  | Devices => fun a s =>
      {| location_types := location_types s; locations := locations s;
         manufacturers := manufacturers s; device_types := device_types s;
         roles := roles s; devices := devices s ++ [a]; next_id := N.succ (next_id s) |}
  end.

Definition rec_id (c : Collection) : Rec c -> Id :=
  match c with
  | LocationTypes => lt_id
  | Locations => loc_id
  | Manufacturers => man_id
  | DeviceTypes => dt_id
  | Roles => r_id
  | Devices => dev_id
  end.

(** The attributes of a record that a [get] can filter on. *)
Definition attr (c : Collection) : Rec c -> string -> option Value :=
  match c with
  | LocationTypes => fun a k =>
      if String.eqb k "name" then Some (VStr (lt_name a))
      else if String.eqb k "description" then Some (VStr (lt_description a))
      else if String.eqb k "content_types" then Some (VList (lt_content_types a))
      else None
  | Locations => fun a k =>
      if String.eqb k "name" then Some (VStr (loc_name a))
      else if String.eqb k "location_type" then Some (VRef (loc_location_type a))
      else if String.eqb k "status" then Some (VStr (loc_status a))
      else None
  | Manufacturers => fun a k =>
      if String.eqb k "name" then Some (VStr (man_name a)) else None
  | DeviceTypes => fun a k =>
      if String.eqb k "model" then Some (VStr (dt_model a))
      else if String.eqb k "manufacturer" then Some (VRef (dt_manufacturer a))
      else None
  | Roles => fun a k =>
      if String.eqb k "name" then Some (VStr (r_name a))
      else if String.eqb k "description" then Some (VStr (r_description a))
      else if String.eqb k "content_types" then Some (VList (r_content_types a))
      else None
  | Devices => fun a k =>
      if String.eqb k "name" then Some (VStr (dev_name a))
      else if String.eqb k "device_type" then Some (VRef (dev_device_type a))
      else if String.eqb k "role" then Some (VRef (dev_role a))
      else if String.eqb k "location" then Some (VRef (dev_location a))
      else if String.eqb k "status" then Some (VStr (dev_status a))
      else None
  end.

Definition matches (c : Collection) (kwargs : Dict) (a : Rec c) : bool :=
  forallb (fun kv =>
             match attr c a (fst kv) with
             | Some v => Value_eqb v (snd kv)
             | None => false
             end) kwargs.

Definition str_field (k : string) (d : Dict) : option string :=
  match lookup k d with Some (VStr s) => Some s | _ => None end.

Definition ref_field (k : string) (d : Dict) : option Id :=
  match lookup k d with Some (VRef i) => Some i | _ => None end.

Definition list_field (k : string) (d : Dict) : option (list string) :=
  match lookup k d with Some (VList l) => Some l | _ => None end.

(** The record the server builds from the body of a create request,
    under a fresh identifier; [None] when a field is missing or has the
    wrong shape. *)
Definition parse (c : Collection) (i : Id) (d : Dict) : option (Rec c) :=
  match c with
  | LocationTypes =>
      match str_field "name" d, str_field "description" d,
            list_field "content_types" d with
      | Some n, Some ds, Some cts =>
          Some {| lt_id := i; lt_name := n; lt_description := ds;
                  lt_content_types := cts |}
      | _, _, _ => None
      end
  | Locations =>
      match str_field "name" d, ref_field "location_type" d,
            str_field "status" d with
      | Some n, Some t, Some st =>
          Some {| loc_id := i; loc_name := n; loc_location_type := t;
                  loc_status := st |}
      | _, _, _ => None
      end
  | Manufacturers =>
      match str_field "name" d with
      | Some n => Some {| man_id := i; man_name := n |}
      | None => None
      end
  | DeviceTypes =>
      match str_field "model" d, ref_field "manufacturer" d with
      | Some m, Some mf =>
          Some {| dt_id := i; dt_model := m; dt_manufacturer := mf |}
      | _, _ => None
      end
  | Roles =>
      match str_field "name" d, str_field "description" d,
            list_field "content_types" d with
      | Some n, Some ds, Some cts =>
          Some {| r_id := i; r_name := n; r_description := ds;
                  r_content_types := cts |}
      | _, _, _ => None
      end
  | Devices =>
      match str_field "name" d, ref_field "device_type" d,
            ref_field "role" d, ref_field "location" d,
            str_field "status" d with
      | Some n, Some t, Some r, Some l, Some st =>
          Some {| dev_id := i; dev_name := n; dev_device_type := t;
                  dev_role := r; dev_location := l; dev_status := st |}
      | _, _, _, _, _ => None
      end
  end.

(** What the script cannot control: which queries the server refuses
    (for instance a collection that cannot be filtered by the given
    parameters), and which create requests it rejects on validation or
    conflict, given what it already holds.  [Some msg] is the error
    text. *)
Record Server := {
  srv_query_error : Collection -> Dict -> option string;
  srv_create_error : Store -> Collection -> Dict -> option string }.

(** ** The observable trace *)

Inductive Event :=
| Connect (url token : option string)
| Get (c : Collection) (kwargs : Dict)
| Create (c : Collection) (data : Dict) (resp : option Id)
| Print (line : string).

Record World := {
  remote : Store;
  log : list Event }.

Definition emit (e : Event) (w : World) : World :=
  {| remote := remote w; log := log w ++ [e] |}.

(** ** Python control flow *)

Inductive Exn :=
| RequestError (msg : string)
| ValueError (msg : string).

Inductive Outcome (A : Type) :=
| Ret (a : A)
| Exit (code : Z)
| Raise (e : Exn).
Arguments Ret {A} a.
Arguments Exit {A} code.
Arguments Raise {A} e.

Definition M (A : Type) : Type := World -> Outcome A * World.

Definition ret {A} (a : A) : M A := fun w => (Ret a, w).

Definition bind {A B} (m : M A) (k : A -> M B) : M B :=
  fun w =>
    match m w with
    | (Ret a, w') => k a w'
    | (Exit code, w') => (Exit code, w')
    | (Raise e, w') => (Raise e, w')
    end.

Notation "x <- m ;; k" := (bind m (fun x => k))
  (at level 61, m at next level, right associativity).
Notation "m ;; k" := (bind m (fun _ => k))
  (at level 61, right associativity).

(** [try: m except pynautobot.core.query.RequestError as e: h e] *)
Definition try_except {A} (m : M A) (h : string -> M A) : M A :=
  fun w =>
    match m w with
    | (Raise (RequestError msg), w') => h msg w'
    | r => r
    end.

Definition print (line : string) : M unit :=
  fun w => (Ret tt, emit (Print line) w).

Definition sys_exit {A} (code : Z) : M A :=
  fun w => (Exit code, w).

(** ** The pynautobot client *)

Section Client.

Variable srv : Server.

(** [pynautobot.api(url=..., token=...)] *)
Definition api (url token : option string) : M unit :=
  fun w => (Ret tt, emit (Connect url token) w).

(** [Endpoint.get] with keyword arguments: [None] when nothing matches, the record
    when exactly one does, [ValueError] when the filter yields more than
    one result, [RequestError] when the server refuses the query. *)
Definition get (c : Collection) (kwargs : Dict) : M (option (Rec c)) :=
  fun w =>
    let w' := emit (Get c kwargs) w in
    match srv_query_error srv c kwargs with
    | Some msg => (Raise (RequestError msg), w')
    | None =>
        match filter (matches c kwargs) (items c (remote w)) with
        | [] => (Ret None, w')
        | [a] => (Ret (Some a), w')
        | _ :: _ :: _ =>
            (Raise (ValueError "get() returned more than one result."), w')
        end
    end.

(** [Endpoint.create(data)]: the new record, or [RequestError] when the
    server rejects the request. *)
Definition create (c : Collection) (data : Dict) : M (Rec c) :=
  fun w =>
    let s := remote w in
    match srv_create_error srv s c data with
    | Some msg =>
        (Raise (RequestError msg), emit (Create c data None) w)
    | None =>
        match parse c (next_id s) data with
        | None =>
            (Raise (RequestError "400 Bad Request"),
             emit (Create c data None) w)
        | Some a =>
            (Ret a, {| remote := stored c a s;
                       log := log w ++ [Create c data (Some (next_id s))] |})
        end
    end.

(** Reading a nested record off a foreign key, as [new_device.location]
    does: the record of collection [c] with that identifier, as the
    server holds it. *)
Definition fetch (c : Collection) (i : Id) : M (Rec c) :=
  fun w =>
    match find (fun a => N.eqb (rec_id c a) i) (items c (remote w)) with
    | Some a => (Ret a, w)
    | None => (Raise (RequestError "404 Not Found"), w)
    end.

(** ** The script *)

Definition get_or_create_location_type (location_type_name : string)
  : M LocationType :=
  location_type <- get LocationTypes [("name", VStr location_type_name)] ;;
  match location_type with
  | Some location_type =>
      print ("[INFO] Found existing location type: " ++ lt_name location_type) ;;
      ret location_type
  | None =>
      print ("[INFO] Creating location type '" ++ location_type_name ++ "'...") ;;
      try_except
        (create LocationTypes
           [("name", VStr location_type_name);
            ("description", VStr ("Created by script for " ++ location_type_name));
            ("content_types", VList ["dcim.device"])])
        (fun e =>
           print ("[ERROR] Failed to create location type '"
                    ++ location_type_name ++ "': " ++ e) ;;
           sys_exit 1)
  end.

Definition get_or_create_location (location_name : string)
    (location_type : LocationType) : M Location :=
  location <- get Locations [("name", VStr location_name)] ;;
  match location with
  | Some location =>
      print ("[INFO] Found existing location: " ++ loc_name location) ;;
      ret location
  | None =>
      print ("[INFO] Creating location '" ++ location_name ++ "' with type '"
               ++ lt_name location_type ++ "'...") ;;
      try_except
        (create Locations
           [("name", VStr location_name);
            ("location_type", VRef (lt_id location_type));
            ("status", VStr "Active")])
        (fun e =>
           print ("[ERROR] Failed to create location '"
                    ++ location_name ++ "': " ++ e) ;;
           sys_exit 1)
  end.

Definition get_or_create_manufacturer (manufacturer_name : string)
  : M Manufacturer :=
  manufacturer <- get Manufacturers [("name", VStr manufacturer_name)] ;;
  match manufacturer with
  | Some manufacturer =>
      print ("[INFO] Found existing manufacturer: " ++ man_name manufacturer) ;;
      ret manufacturer
  | None =>
      print ("[INFO] Creating manufacturer '" ++ manufacturer_name ++ "'...") ;;
      try_except
        (create Manufacturers [("name", VStr manufacturer_name)])
        (fun e =>
           print ("[ERROR] Failed to create manufacturer '"
                    ++ manufacturer_name ++ "': " ++ e) ;;
           sys_exit 1)
  end.

Definition get_or_create_device_type (device_type_model : string)
    (manufacturer : Manufacturer) : M DeviceType :=
  device_type <-
    try_except
      (get DeviceTypes [("model", VStr device_type_model);
                        ("manufacturer", VRef (man_id manufacturer))])
      (fun _ => ret None) ;;
  match device_type with
  | Some device_type =>
      print ("[INFO] Found existing device type: " ++ dt_model device_type) ;;
      ret device_type
  | None =>
      print ("[INFO] Creating device type '" ++ device_type_model
               ++ "' for manufacturer '" ++ man_name manufacturer ++ "'...") ;;
      try_except
        (create DeviceTypes
           [("model", VStr device_type_model);
            ("manufacturer", VRef (man_id manufacturer))])
        (fun e =>
           print ("[ERROR] Failed to create device type '"
                    ++ device_type_model ++ "': " ++ e) ;;
           sys_exit 1)
  end.

Definition get_or_create_role (role_name : string) : M Role :=
  role <- get Roles [("name", VStr role_name)] ;;
  match role with
  | Some role =>
      print ("[INFO] Found existing role: " ++ r_name role) ;;
      ret role
  | None =>
      print ("[INFO] Creating role '" ++ role_name ++ "' for devices...") ;;
      try_except
        (create Roles
           [("name", VStr role_name);
            ("description", VStr ("Device role for " ++ role_name));
            ("content_types", VList ["dcim.device"])])
        (fun e =>
           print ("[ERROR] Failed to create role '" ++ role_name ++ "': " ++ e) ;;
           sys_exit 1)
  end.

Definition create_device (device_name : string) (location : Location)
    (device_type : DeviceType) (role : Role) : M Device :=
  existing_device <- get Devices [("name", VStr device_name);
                                  ("location", VRef (loc_id location))] ;;
  match existing_device with
  | Some existing_device =>
      print ("[WARNING] Device '" ++ device_name
               ++ "' already exists at location '" ++ loc_name location ++ "'.") ;;
      ret existing_device
  | None =>
      print ("[INFO] Creating new device '" ++ device_name ++ "'...") ;;
      try_except
        (create Devices
           [("name", VStr device_name);
            ("device_type", VRef (dt_id device_type));
            ("role", VRef (r_id role));
            ("location", VRef (loc_id location));
            ("status", VStr "Active")])
        (fun e =>
           print ("[ERROR] Failed to create device '" ++ device_name ++ "': " ++ e) ;;
           sys_exit 1)
  end.

(** Python's [not v] on the result of [os.environ.get]: true for [None]
    and for the empty string. *)
Definition not_ (v : option string) : bool :=
  match v with
  | None => true
  | Some s => String.eqb s ""
  end.

(** The summary lines; a record returned by the client is always
    truthy, so the guard [if new_device:] is always taken. *)
Definition print_result (new_device : Device) : M unit :=
  print "[SUCCESS] Device created or retrieved successfully:" ;;
  print ("  Name:     " ++ dev_name new_device) ;;
  location <- fetch Locations (dev_location new_device) ;;
  print ("  Location: " ++ loc_name location) ;;
  role <- fetch Roles (dev_role new_device) ;;
  print ("  Role:     " ++ r_name role) ;;
  device_type <- fetch DeviceTypes (dev_device_type new_device) ;;
  print ("  Type:     " ++ dt_model device_type) ;;
  print ("  Status:   " ++ dev_status new_device).

Definition main (environ : string -> option string) : M unit :=
  let nautobot_url := environ "NAUTOBOT_API_URL" in
  let nautobot_token := environ "NAUTOBOT_API_TOKEN" in
  (if not_ nautobot_url || not_ nautobot_token then
     print "[ERROR] Missing NAUTOBOT_API_URL or NAUTOBOT_API_TOKEN environment variable." ;;
     sys_exit 1
   else ret tt) ;;
  api nautobot_url nautobot_token ;;
  let location_type_name := "Campus" in
  let location_name := "MyCampusLocation" in
  let manufacturer_name := "Cisco" in
  let device_type_model := "C9300-48P" in
  let role_name := "Access Switch" in
  let device_name := "myswitch001" in
  loc_type <- get_or_create_location_type location_type_name ;;
  location <- get_or_create_location location_name loc_type ;;
  manufacturer <- get_or_create_manufacturer manufacturer_name ;;
  device_type <- get_or_create_device_type device_type_model manufacturer ;;
  role <- get_or_create_role role_name ;;
  new_device <- create_device device_name location device_type role ;;
  print_result new_device.

(** A call of one of the six resolvers, indexed by the collection it
    works on, so that a property of every resolver is a property of
    [resolve k] for every [k]. *)
Inductive Call : Collection -> Type :=
| call_location_type (location_type_name : string) : Call LocationTypes
| call_location (location_name : string) (location_type : LocationType)
  : Call Locations
| call_manufacturer (manufacturer_name : string) : Call Manufacturers
| call_device_type (device_type_model : string) (manufacturer : Manufacturer)
  : Call DeviceTypes
| call_role (role_name : string) : Call Roles
| call_device (device_name : string) (location : Location)
    (device_type : DeviceType) (role : Role) : Call Devices.

Definition resolve {c} (k : Call c) : M (Rec c) :=
  match k in Call c return M (Rec c) with
  | call_location_type n => get_or_create_location_type n
  | call_location n t => get_or_create_location n t
  | call_manufacturer n => get_or_create_manufacturer n
  | call_device_type m mf => get_or_create_device_type m mf
  | call_role n => get_or_create_role n
  | call_device n l t r => create_device n l t r
  end.

End Client.

(** The keyword arguments a resolver call passes to [get]. *)
Definition key {c} (k : Call c) : Dict :=
  match k with
  | call_location_type n => [("name", VStr n)]
  | call_location n _ => [("name", VStr n)]
  | call_manufacturer n => [("name", VStr n)]
  | call_device_type m mf => [("model", VStr m); ("manufacturer", VRef (man_id mf))]
  | call_role n => [("name", VStr n)]
  | call_device n l _ _ => [("name", VStr n); ("location", VRef (loc_id l))]
  end.

(** The dict a resolver call passes to [create]. *)
Definition payload {c} (k : Call c) : Dict :=
  match k with
  | call_location_type n =>
      [("name", VStr n);
       ("description", VStr ("Created by script for " ++ n));
       ("content_types", VList ["dcim.device"])]
  | call_location n t =>
      [("name", VStr n); ("location_type", VRef (lt_id t));
       ("status", VStr "Active")]
  | call_manufacturer n => [("name", VStr n)]
  | call_device_type m mf =>
      [("model", VStr m); ("manufacturer", VRef (man_id mf))]
  | call_role n =>
      [("name", VStr n);
       ("description", VStr ("Device role for " ++ n));
       ("content_types", VList ["dcim.device"])]
  | call_device n l t r =>
      [("name", VStr n); ("device_type", VRef (dt_id t));
       ("role", VRef (r_id r)); ("location", VRef (loc_id l));
       ("status", VStr "Active")]
  end.

(** The records of collection [c] that a [get] with these keyword
    arguments selects. *)
Definition found (c : Collection) (kwargs : Dict) (s : Store) : list (Rec c) :=
  filter (matches c kwargs) (items c s).

(** ** Predicates on logs and stores *)

Definition is_get (e : Event) : bool :=
  match e with Get _ _ => true | _ => false end.

Definition is_create (e : Event) : bool :=
  match e with Create _ _ _ => true | _ => false end.

Definition is_failed_create (e : Event) : bool :=
  match e with Create _ _ None => true | _ => false end.

(** No create request of the log was rejected. *)
Definition clean (l : list Event) : Prop :=
  forallb (fun e => negb (is_failed_create e)) l = true.

Definition error_line (line : string) : Prop :=
  String.prefix "[ERROR] Failed to create " line = true.

(** Store [s'] holds everything [s] holds, unchanged and in the same
    order, and possibly more. *)
Definition extends (s s' : Store) : Prop :=
  forall c, exists l, items c s' = (items c s ++ l)%list.

(** No record of collection [c] has value [v] for attribute [k]. *)
Definition absent (c : Collection) (k : string) (v : Value) (s : Store) : Prop :=
  forall a, In a (items c s) -> attr c a k <> Some v.

(** Every identifier in use was handed out by the counter. *)
Definition ids_below (s : Store) : Prop :=
  forall c a, In a (items c s) -> (rec_id c a < next_id s)%N.

(** The devices a [get] on name and location selects, read off the
    two attributes directly. *)
Definition devices_at (n : string) (i : Id) (s : Store) : list Device :=
  filter (fun d => String.eqb (dev_name d) n && N.eqb (dev_location d) i)
         (devices s).

(** The server refuses no query. *)
Definition answering (srv : Server) : Prop :=
  forall c q, srv_query_error srv c q = None.

(** The server rejects no create request. *)
Definition accepting (srv : Server) : Prop :=
  forall s c d, srv_create_error srv s c d = None.

(** Nothing on the server carries one of the six names [main] uses. *)
Definition nothing_provisioned (s : Store) : Prop :=
  absent LocationTypes "name" (VStr "Campus") s /\
  absent Locations "name" (VStr "MyCampusLocation") s /\
  absent Manufacturers "name" (VStr "Cisco") s /\
  absent DeviceTypes "model" (VStr "C9300-48P") s /\
  absent Roles "name" (VStr "Access Switch") s /\
  absent Devices "name" (VStr "myswitch001") s.

Definition unset_or_empty (v : option string) : Prop :=
  v = None \/ v = Some "".

(** World [w] with the events [l] appended to its log. *)
Definition emits (l : list Event) (w : World) : World :=
  {| remote := remote w; log := log w ++ l |}.

(** The line a resolver call prints when its lookup yields record [a]. *)
Definition found_line {c} (k : Call c) : Rec c -> string :=
  match k in Call c return Rec c -> string with
  | call_location_type _ => fun a =>
      "[INFO] Found existing location type: " ++ lt_name a
  | call_location _ _ => fun a =>
      "[INFO] Found existing location: " ++ loc_name a
  | call_manufacturer _ => fun a =>
      "[INFO] Found existing manufacturer: " ++ man_name a
  | call_device_type _ _ => fun a =>
      "[INFO] Found existing device type: " ++ dt_model a
  | call_role _ => fun a =>
      "[INFO] Found existing role: " ++ r_name a
  | call_device n l _ _ => fun _ =>
      "[WARNING] Device '" ++ n ++ "' already exists at location '"
        ++ loc_name l ++ "'."
  end.

(** The line it prints before its create request. *)
Definition creating_line {c} (k : Call c) : string :=
  match k with
  | call_location_type n => "[INFO] Creating location type '" ++ n ++ "'..."
  | call_location n t =>
      "[INFO] Creating location '" ++ n ++ "' with type '" ++ lt_name t ++ "'..."
  | call_manufacturer n => "[INFO] Creating manufacturer '" ++ n ++ "'..."
  | call_device_type m mf =>
      "[INFO] Creating device type '" ++ m ++ "' for manufacturer '"
        ++ man_name mf ++ "'..."
  | call_role n => "[INFO] Creating role '" ++ n ++ "' for devices..."
  | call_device n _ _ _ => "[INFO] Creating new device '" ++ n ++ "'..."
  end.

(** The line it prints when the create request fails with error [e]. *)
Definition failure_line {c} (k : Call c) (e : string) : string :=
  match k with
  | call_location_type n =>
      "[ERROR] Failed to create location type '" ++ n ++ "': " ++ e
  | call_location n _ => "[ERROR] Failed to create location '" ++ n ++ "': " ++ e
  | call_manufacturer n =>
      "[ERROR] Failed to create manufacturer '" ++ n ++ "': " ++ e
  | call_device_type m _ =>
      "[ERROR] Failed to create device type '" ++ m ++ "': " ++ e
  | call_role n => "[ERROR] Failed to create role '" ++ n ++ "': " ++ e
  | call_device n _ _ _ => "[ERROR] Failed to create device '" ++ n ++ "': " ++ e
  end.

(** What the creating branch of resolver call [k] amounts to from world
    [w]: the lookup, the announcement, the create request, and then
    either the new record, saved under the next identifier, or the
    error line and exit status 1. *)
Definition creates (srv : Server) {c} (k : Call c) (w : World)
    (r : Outcome (Rec c) * World) : Prop :=
  match srv_create_error srv (remote w) c (payload k) with
  | None =>
      exists a,
        parse c (next_id (remote w)) (payload k) = Some a /\
        r = (Ret a,
             {| remote := stored c a (remote w);
                log := log w ++ [Get c (key k); Print (creating_line k);
                                 Create c (payload k)
                                   (Some (next_id (remote w)))] |})
  | Some e =>
      r = (Exit 1,
           emits [Get c (key k); Print (creating_line k);
                  Create c (payload k) None; Print (failure_line k e)] w)
  end.

(** The events one computation may append: either no create request
    among them was rejected, or the computation exited with status 1
    and the events end with the rejected create request followed by
    its error line, that request being the only rejected one. *)
Definition careful_events {A} (out : Outcome A) (ext : list Event) : Prop :=
  clean ext \/
  (out = Exit 1 /\
   exists l0 c d line,
     clean l0 /\ error_line line /\
     ext = (l0 ++ [Create c d None; Print line])%list).

Definition careful {A} (m : M A) : Prop :=
  forall w, exists ext,
    log (snd (m w)) = (log w ++ ext)%list /\ careful_events (fst (m w)) ext.

(** World [w'] comes after [w] and has lost nothing: the store holds
    all it held, and every record whose creation the log reports since
    [w] is in the store as the server built it. *)
Definition keeps (w w' : World) : Prop :=
  extends (remote w) (remote w') /\
  exists ext,
    log w' = (log w ++ ext)%list /\
    forall c d i, In (Create c d (Some i)) ext ->
      exists a, parse c i d = Some a /\ In a (items c (remote w')).

Definition conservative {A} (m : M A) : Prop :=
  forall w, keeps w (snd (m w)).

(** The summary [main] prints for device [d], given the records its
    three references lead to. *)
Definition summary (d : Device) (l : Location) (r : Role) (t : DeviceType)
  : list string :=
  ["[SUCCESS] Device created or retrieved successfully:";
   "  Name:     " ++ dev_name d;
   "  Location: " ++ loc_name l;
   "  Role:     " ++ r_name r;
   "  Type:     " ++ dt_model t;
   "  Status:   " ++ dev_status d].

(** The events of a run of [main], up to the summary, in which each of
    the six lookups finds its record. *)
Definition lookups_only (url token : option string) (lt : LocationType)
    (loc : Location) (mf : Manufacturer) (dt : DeviceType) (r : Role)
  : list Event :=
  [Connect url token;
   Get LocationTypes [("name", VStr "Campus")];
   Print ("[INFO] Found existing location type: " ++ lt_name lt);
   Get Locations [("name", VStr "MyCampusLocation")];
   Print ("[INFO] Found existing location: " ++ loc_name loc);
   Get Manufacturers [("name", VStr "Cisco")];
   Print ("[INFO] Found existing manufacturer: " ++ man_name mf);
   Get DeviceTypes [("model", VStr "C9300-48P");
                    ("manufacturer", VRef (man_id mf))];
   Print ("[INFO] Found existing device type: " ++ dt_model dt);
   Get Roles [("name", VStr "Access Switch")];
   Print ("[INFO] Found existing role: " ++ r_name r);
   Get Devices [("name", VStr "myswitch001"); ("location", VRef (loc_id loc))];
   Print ("[WARNING] Device 'myswitch001' already exists at location '"
            ++ loc_name loc ++ "'.")].

(** ** Shapes of runs *)

(** The lookup of resolver call [k] counts as "not found": it was
    answered with no record, or it is the device-type lookup and the
    server refused it. *)
Definition lookup_missed (srv : Server) {c} (k : Call c) (w : World) : Prop :=
  (srv_query_error srv c (key k) = None /\ found c (key k) (remote w) = [])
  \/ (c = DeviceTypes /\ srv_query_error srv c (key k) <> None).

(** The lookup of resolver call [k] fails with exception [e], which the
    resolver does not catch. *)
Definition lookup_escapes (srv : Server) {c} (k : Call c) (w : World)
    (e : Exn) : Prop :=
  (c <> DeviceTypes /\
   exists msg, srv_query_error srv c (key k) = Some msg /\
               e = RequestError msg)
  \/ (srv_query_error srv c (key k) = None /\
      (2 <= List.length (found c (key k) (remote w)))%nat /\
      e = ValueError "get() returned more than one result.").

(** The four ways a resolver call can end. *)
Inductive resolution (srv : Server) {c} (k : Call c) (w : World)
  : Outcome (Rec c) * World -> Prop :=
| res_found a :
    srv_query_error srv c (key k) = None ->
    found c (key k) (remote w) = [a] ->
    resolution srv k w
      (Ret a, emits [Get c (key k); Print (found_line k a)] w)
| res_created a :
    lookup_missed srv k w ->
    srv_create_error srv (remote w) c (payload k) = None ->
    parse c (next_id (remote w)) (payload k) = Some a ->
    resolution srv k w
      (Ret a,
       {| remote := stored c a (remote w);
          log := log w ++ [Get c (key k); Print (creating_line k);
                           Create c (payload k) (Some (next_id (remote w)))] |})
| res_rejected e :
    lookup_missed srv k w ->
    srv_create_error srv (remote w) c (payload k) = Some e ->
    resolution srv k w
      (Exit 1,
       emits [Get c (key k); Print (creating_line k);
              Create c (payload k) None; Print (failure_line k e)] w)
| res_escaped e :
    lookup_escapes srv k w e ->
    resolution srv k w (Raise e, emits [Get c (key k)] w).

(** The collections looked up, and those a create was sent to, in the
    order of the log. *)
Fixpoint lookups (l : list Event) : list Collection :=
  match l with
  | [] => []
  | Get c _ :: l' => c :: lookups l'
  | _ :: l' => lookups l'
  end.

Fixpoint creations (l : list Event) : list Collection :=
  match l with
  | [] => []
  | Create c _ _ :: l' => c :: creations l'
  | _ :: l' => creations l'
  end.

(** The order in which [main] calls the resolvers. *)
Definition stages : list Collection :=
  [LocationTypes; Locations; Manufacturers; DeviceTypes; Roles; Devices].

Definition Collection_eq_dec (a b : Collection) : {a = b} + {a <> b}.
Proof. decide equality. Defined.

Definition is_error_print (e : Event) : bool :=
  match e with
  | Print line => String.prefix "[ERROR]" line
  | _ => false
  end.

(** [m] only appends to the log, and what it appends satisfies [P]
    together with the outcome. *)
Definition appends {A} (P : Outcome A -> list Event -> Prop) (m : M A) : Prop :=
  forall w, exists ext,
    log (snd (m w)) = (log w ++ ext)%list /\ P (fst (m w)) ext.

(** A property of outcome and appended events that survives
    sequencing: it holds of a computation followed by another when it
    holds of both, and of a computation cut short when it holds of the
    part that ran. *)
Definition sequential (I : forall A, Outcome A -> list Event -> Prop) : Prop :=
  (forall A B (a : A) e1 (out : Outcome B) e2,
      I A (Ret a) e1 -> I B out e2 -> I B out (e1 ++ e2)%list) /\
  (forall A B code e1, I A (Exit code) e1 -> I B (Exit code) e1) /\
  (forall A B e e1, I A (Raise e) e1 -> I B (Raise e) e1).

(** The lookups of the appended events are the first collections of
    [L], in order, and all of [L] when the computation returned. *)
Definition visits (L : list Collection) {A} (out : Outcome A)
    (ext : list Event) : Prop :=
  exists rest,
    L = (lookups ext ++ rest)%list /\ (forall a, out = Ret a -> rest = []).

(** Every create request among the events comes right after a lookup on
    the same collection and one printed line. *)
Definition looked_up_first (ext : list Event) : Prop :=
  forall l1 c d r l2,
    ext = (l1 ++ Create c d r :: l2)%list ->
    exists l0 q line, l1 = (l0 ++ [Get c q; Print line])%list.

(** An exit has status 1 and comes right after an [[ERROR]] line;
    without an exit there is no [[ERROR]] line at all. *)
Definition announced {A} (out : Outcome A) (ext : list Event) : Prop :=
  (forall code, out = Exit code ->
     code = 1%Z /\
     exists l line, ext = (l ++ [Print line])%list /\
                    String.prefix "[ERROR]" line = true)
  /\ (existsb is_error_print ext = true -> exists code, out = Exit code).

(** No collection received more create requests than lookups. *)
Definition no_blind_create (ext : list Event) : Prop :=
  forall c, (count_occ Collection_eq_dec (creations ext) c
             <= count_occ Collection_eq_dec (lookups ext) c)%nat.

(** Store [s] holds the six records [main] is after, linked as the
    script links them: the device type to the manufacturer and the
    device to the location. *)
Definition switch_provisioned (s : Store) : Prop :=
  exists lt loc mf dt r dev,
    In lt (location_types s) /\ lt_name lt = "Campus" /\
    In loc (locations s) /\ loc_name loc = "MyCampusLocation" /\
    In mf (manufacturers s) /\ man_name mf = "Cisco" /\
    In dt (device_types s) /\ dt_model dt = "C9300-48P" /\
    dt_manufacturer dt = man_id mf /\
    In r (roles s) /\ r_name r = "Access Switch" /\
    In dev (devices s) /\ dev_name dev = "myswitch001" /\
    dev_location dev = loc_id loc.

(** ** Concrete servers and stores used to exercise the model *)

Definition empty_store : Store :=
  {| location_types := []; locations := []; manufacturers := [];
     device_types := []; roles := []; devices := []; next_id := 1%N |}.

Definition fresh : World := {| remote := empty_store; log := [] |}.

(** A server that refuses no query and rejects no create request. *)
Definition permissive : Server :=
  {| srv_query_error := fun _ _ => None;
     srv_create_error := fun _ _ _ => None |}.

Definition env_ok (k : string) : option string :=
  if String.eqb k "NAUTOBOT_API_URL" then Some "http://localhost:8080"
  else if String.eqb k "NAUTOBOT_API_TOKEN" then Some "0123456789abcdef"
  else None.

Definition env_no_token (k : string) : option string :=
  if String.eqb k "NAUTOBOT_API_URL" then Some "http://localhost:8080"
  else None.

Definition Collection_eqb (a b : Collection) : bool :=
  match a, b with
  | LocationTypes, LocationTypes | Locations, Locations
  | Manufacturers, Manufacturers | DeviceTypes, DeviceTypes
  | Roles, Roles | Devices, Devices => true
  | _, _ => false
  end.

(** A server that refuses every query on collection [c]. *)
Definition refusing (c : Collection) : Server :=
  {| srv_query_error := fun c' _ =>
       if Collection_eqb c c' then Some "400 Bad Request" else None;
     srv_create_error := fun _ _ _ => None |}.

(** A server that rejects every create request on collection [c]. *)
Definition rejecting (c : Collection) : Server :=
  {| srv_query_error := fun _ _ => None;
     srv_create_error := fun _ c' _ =>
       if Collection_eqb c c' then Some "400 Bad Request" else None |}.

Definition campus : LocationType :=
  {| lt_id := 1; lt_name := "Campus";
     lt_description := "Created by script for Campus";
     lt_content_types := ["dcim.device"] |}.

Definition my_campus_location : Location :=
  {| loc_id := 2; loc_name := "MyCampusLocation"; loc_location_type := 1;
     loc_status := "Active" |}.

Definition other_location : Location :=
  {| loc_id := 9; loc_name := "Elsewhere"; loc_location_type := 1;
     loc_status := "Active" |}.

Definition cisco : Manufacturer := {| man_id := 3; man_name := "Cisco" |}.

Definition juniper : Manufacturer := {| man_id := 8; man_name := "Juniper" |}.

Definition c9300 : DeviceType :=
  {| dt_id := 4; dt_model := "C9300-48P"; dt_manufacturer := 3 |}.

Definition access_switch : Role :=
  {| r_id := 5; r_name := "Access Switch";
     r_description := "Device role for Access Switch";
     r_content_types := ["dcim.device"] |}.

Definition router : Role :=
  {| r_id := 7; r_name := "Router"; r_description := "";
     r_content_types := ["dcim.device"] |}.

Definition myswitch001 : Device :=
  {| dev_id := 6; dev_name := "myswitch001"; dev_device_type := 4;
     dev_role := 5; dev_location := 2; dev_status := "Active" |}.

(** What a first run leaves on a fresh permissive server. *)
Definition provisioned : World :=
  {| remote :=
       {| location_types := [campus]; locations := [my_campus_location];
          manufacturers := [cisco]; device_types := [c9300];
          roles := [access_switch]; devices := [myswitch001];
          next_id := 7 |};
     log := [] |}.

(** The switch exists, but at another location. *)
Definition switch_elsewhere : World :=
  {| remote :=
       {| location_types := [campus];
          locations := [my_campus_location; other_location];
          manufacturers := [cisco]; device_types := [c9300];
          roles := [access_switch];
          devices := [{| dev_id := 6; dev_name := "myswitch001";
                         dev_device_type := 4; dev_role := 5;
                         dev_location := 9; dev_status := "Active" |}];
          next_id := 10 |};
     log := [] |}.

(** Two locations carry the same name. *)
Definition two_locations : World :=
  {| remote :=
       {| location_types := [campus];
          locations := [my_campus_location;
                        {| loc_id := 3; loc_name := "MyCampusLocation";
                           loc_location_type := 1; loc_status := "Planned" |}];
          manufacturers := []; device_types := []; roles := []; devices := [];
          next_id := 4 |};
     log := [] |}.



(** * Properties *)

Ltac run_resolver :=
  unfold get_or_create_location_type, get_or_create_location,
    get_or_create_manufacturer, get_or_create_device_type,
    get_or_create_role, create_device, bind, try_except.

(** Both ends of a creating branch, once the lookup is settled: [Hp]
    says that the payload parses. *)
Ltac finish_create Hp :=
  match goal with
  | |- context [srv_create_error ?srv ?s ?c ?d] =>
      destruct (srv_create_error srv s c d) as [e|] eqn:He
  end;
  [ unfold sys_exit, emit, emits; cbn [remote log];
    rewrite <- !app_assoc; reflexivity
  | eexists; split; [exact Hp|];
    rewrite Hp; unfold emit; cbn [remote log];
    rewrite <- !app_assoc; reflexivity ].

(** ** The client calls, case by case *)

Section Facts.

Variable srv : Server.

Lemma get_found c q w a :
  srv_query_error srv c q = None ->
  found c q (remote w) = [a] ->
  get srv c q w = (Ret (Some a), emit (Get c q) w).
Proof.
  unfold get, found. intros -> ->. reflexivity.
Qed.

Lemma get_nothing c q w :
  srv_query_error srv c q = None ->
  found c q (remote w) = [] ->
  get srv c q w = (Ret None, emit (Get c q) w).
Proof.
  unfold get, found. intros -> ->. reflexivity.
Qed.

Lemma get_refused c q w msg :
  srv_query_error srv c q = Some msg ->
  get srv c q w = (Raise (RequestError msg), emit (Get c q) w).
Proof.
  unfold get. intros ->. reflexivity.
Qed.

Lemma get_ambiguous c q w a b l :
  srv_query_error srv c q = None ->
  found c q (remote w) = a :: b :: l ->
  get srv c q w =
    (Raise (ValueError "get() returned more than one result."),
     emit (Get c q) w).
Proof.
  unfold get, found. intros -> ->. reflexivity.
Qed.

(** The payload of every resolver call is well-formed for its
    collection: the server can build a record from it. *)
Lemma parse_payload c (k : Call c) i :
  exists a, parse c i (payload k) = Some a /\ rec_id c a = i
            /\ matches c (key k) a = true.
Proof.
  destruct k; simpl; eexists; (split; [reflexivity|]); split; try reflexivity;
    unfold matches; simpl;
    rewrite ?String.eqb_refl, ?N.eqb_refl; reflexivity.
Qed.

(** A resolver whose lookup yields one record returns it after one
    [get] and one printed line. *)
Lemma resolve_found c (k : Call c) w a :
  srv_query_error srv c (key k) = None ->
  found c (key k) (remote w) = [a] ->
  resolve srv k w =
    (Ret a, emit (Print (found_line k a)) (emit (Get c (key k)) w)).
Proof.
  intros Hq Hf.
  destruct k; cbn [resolve key] in *; run_resolver;
    rewrite (get_found _ _ _ _ Hq Hf); reflexivity.
Qed.

Lemma failure_line_is_error c (k : Call c) e : error_line (failure_line k e).
Proof.
  destruct k; reflexivity.
Qed.

Lemma emit_emits e l w : emit e (emits l w) = emits (l ++ [e]) w.
Proof.
  unfold emit, emits; simpl. now rewrite <- app_assoc.
Qed.

Lemma emit_one e w : emit e w = emits [e] w.
Proof. reflexivity. Qed.

Lemma emit_emit e1 e2 w : emit e2 (emit e1 w) = emits [e1; e2] w.
Proof.
  now rewrite (emit_one e1), emit_emits.
Qed.

Lemma create_rejected c d w msg :
  srv_create_error srv (remote w) c d = Some msg ->
  create srv c d w = (Raise (RequestError msg), emit (Create c d None) w).
Proof.
  unfold create. intros ->. reflexivity.
Qed.

Lemma create_accepted c d w a :
  srv_create_error srv (remote w) c d = None ->
  parse c (next_id (remote w)) d = Some a ->
  create srv c d w =
    (Ret a, {| remote := stored c a (remote w);
               log := log w ++ [Create c d (Some (next_id (remote w)))] |}).
Proof.
  unfold create. intros -> ->. reflexivity.
Qed.

(** A resolver whose lookup yields nothing goes through its creating
    branch. *)
Lemma resolve_missing c (k : Call c) w :
  srv_query_error srv c (key k) = None ->
  found c (key k) (remote w) = [] ->
  creates srv k w (resolve srv k w).
Proof.
  intros Hq Hf.
  destruct (parse_payload c k (next_id (remote w))) as (a & Hp & _).
  unfold creates.
  destruct k; cbn [resolve key payload] in *; run_resolver;
    rewrite (get_nothing _ _ _ Hq Hf); unfold print, create;
    cbn [remote emit creating_line failure_line]; finish_create Hp.
Qed.

(** The device-type resolver goes through its creating branch as well
    when the server refuses the lookup. *)
Lemma device_type_lookup_refused m mf w msg :
  srv_query_error srv DeviceTypes (key (call_device_type m mf)) = Some msg ->
  creates srv (call_device_type m mf) w (get_or_create_device_type srv m mf w).
Proof.
  intros Hq.
  destruct (parse_payload _ (call_device_type m mf) (next_id (remote w)))
    as (a & Hp & _).
  unfold creates. cbn [key payload] in *. run_resolver.
  rewrite (get_refused _ _ _ _ Hq). unfold ret, print, create.
  cbn [remote emit creating_line failure_line]. finish_create Hp.
Qed.

(** The five other resolvers let a refused lookup escape. *)
Lemma resolve_lookup_refused c (k : Call c) w msg :
  c <> DeviceTypes ->
  srv_query_error srv c (key k) = Some msg ->
  resolve srv k w = (Raise (RequestError msg), emit (Get c (key k)) w).
Proof.
  intros Hc Hq.
  destruct k; try congruence; cbn [resolve key] in *; run_resolver;
    rewrite (get_refused _ _ _ _ Hq); reflexivity.
Qed.

(** More than one match: the [ValueError] of [get] escapes from every
    resolver, the device-type one included. *)
Lemma resolve_ambiguous c (k : Call c) w a b l :
  srv_query_error srv c (key k) = None ->
  found c (key k) (remote w) = a :: b :: l ->
  resolve srv k w =
    (Raise (ValueError "get() returned more than one result."),
     emit (Get c (key k)) w).
Proof.
  intros Hq Hf.
  destruct k; cbn [resolve key] in *; run_resolver;
    rewrite (get_ambiguous _ _ _ _ _ _ Hq Hf); reflexivity.
Qed.

(** The three answers a lookup can get, and what a resolver does with
    each. *)
Lemma resolve_answered c (k : Call c) w :
  srv_query_error srv c (key k) = None ->
  match found c (key k) (remote w) with
  | [] => creates srv k w (resolve srv k w)
  | [a] =>
      resolve srv k w =
        (Ret a, emits [Get c (key k); Print (found_line k a)] w)
  | _ :: _ :: _ =>
      resolve srv k w =
        (Raise (ValueError "get() returned more than one result."),
         emits [Get c (key k)] w)
  end.
Proof.
  intros Hq.
  destruct (found c (key k) (remote w)) as [|a [|b l]] eqn:Hf.
  - now apply resolve_missing.
  - now rewrite (resolve_found c k w a Hq Hf), emit_emit.
  - now apply resolve_ambiguous with (a := a) (b := b) (l := l).
Qed.

End Facts.

(** ** Environment check *)

(** C5: if either required environment variable (the API base URL or the
    bearer token) is unset or empty, [main] prints the error line and
    exits with status 1; the only event of the run is that line, so the
    API client is not constructed and no request is made. *)
Theorem main_missing_environment srv environ w :
  unset_or_empty (environ "NAUTOBOT_API_URL") \/
  unset_or_empty (environ "NAUTOBOT_API_TOKEN") ->
  main srv environ w =
    (Exit 1,
     emit (Print "[ERROR] Missing NAUTOBOT_API_URL or NAUTOBOT_API_TOKEN environment variable.") w).
Proof.
  intros H. unfold main, bind.
  assert (Hn : not_ (environ "NAUTOBOT_API_URL")
               || not_ (environ "NAUTOBOT_API_TOKEN") = true).
  { apply orb_true_iff.
    destruct H as [[-> | ->] | [-> | ->]]; [left | left | right | right];
      reflexivity. }
  rewrite Hn. reflexivity.
Qed.

Lemma main_missing_environment_witness :
  (unset_or_empty (env_no_token "NAUTOBOT_API_URL") \/
   unset_or_empty (env_no_token "NAUTOBOT_API_TOKEN")) /\
  main permissive env_no_token fresh =
    (Exit 1,
     emit (Print "[ERROR] Missing NAUTOBOT_API_URL or NAUTOBOT_API_TOKEN environment variable.") fresh).
Proof.
  assert (H : unset_or_empty (env_no_token "NAUTOBOT_API_URL") \/
              unset_or_empty (env_no_token "NAUTOBOT_API_TOKEN")).
  { right. left. reflexivity. }
  split; [exact H | exact (main_missing_environment permissive env_no_token fresh H)].
Defined.

(** ** Lookup errors *)

(** C9: for the five resolvers other than the device-type one, a query
    error raised by the lookup leaves the resolver as an uncaught
    [RequestError]: the only event is the [get], nothing is printed and
    no create is issued. *)
Theorem lookup_error_escapes srv c (k : Call c) w msg :
  c <> DeviceTypes ->
  srv_query_error srv c (key k) = Some msg ->
  resolve srv k w = (Raise (RequestError msg), emit (Get c (key k)) w).
Proof.
  apply resolve_lookup_refused.
Qed.

Lemma lookup_error_escapes_witness :
  get_or_create_location (refusing Locations) "MyCampusLocation" campus fresh =
    (Raise (RequestError "400 Bad Request"),
     emit (Get Locations [("name", VStr "MyCampusLocation")]) fresh)
  /\ get_or_create_role (refusing Roles) "Access Switch" fresh =
    (Raise (RequestError "400 Bad Request"),
     emit (Get Roles [("name", VStr "Access Switch")]) fresh).
Proof.
  split.
  - apply (lookup_error_escapes (refusing Locations) Locations
             (call_location "MyCampusLocation" campus) fresh);
      [discriminate | reflexivity].
  - apply (lookup_error_escapes (refusing Roles) Roles
             (call_role "Access Switch") fresh);
      [discriminate | reflexivity].
Defined.

(** C4: a query error raised by the device-type lookup is caught and
    treated as "not found": the resolver goes on to the create request.
    When the server accepts it the new device type is returned; only a
    rejected create ends the run. *)
Theorem device_type_lookup_error_is_absence srv device_type_model manufacturer w msg :
  let kwargs := [("model", VStr device_type_model);
                 ("manufacturer", VRef (man_id manufacturer))] in
  let line := "[INFO] Creating device type '" ++ device_type_model
                ++ "' for manufacturer '" ++ man_name manufacturer ++ "'..." in
  let s := remote w in
  srv_query_error srv DeviceTypes kwargs = Some msg ->
  (srv_create_error srv s DeviceTypes kwargs = None ->
   let new := {| dt_id := next_id s; dt_model := device_type_model;
                 dt_manufacturer := man_id manufacturer |} in
   get_or_create_device_type srv device_type_model manufacturer w =
     (Ret new,
      {| remote := stored DeviceTypes new s;
         log := log w ++ [Get DeviceTypes kwargs; Print line;
                          Create DeviceTypes kwargs (Some (next_id s))] |}))
  /\ (forall e, srv_create_error srv s DeviceTypes kwargs = Some e ->
      get_or_create_device_type srv device_type_model manufacturer w =
        (Exit 1,
         emits [Get DeviceTypes kwargs; Print line;
                Create DeviceTypes kwargs None;
                Print ("[ERROR] Failed to create device type '"
                         ++ device_type_model ++ "': " ++ e)] w)).
Proof.
  intros kwargs line s Hq.
  split; [intros Hc new | intros e Hc];
    run_resolver; rewrite (get_refused _ _ _ _ _ Hq);
    unfold ret, print, create; cbn [remote emit]; fold s; fold kwargs;
    rewrite Hc; unfold sys_exit, emit, emits; cbn [remote log parse];
    rewrite <- !app_assoc; reflexivity.
Qed.

Lemma device_type_lookup_error_is_absence_witness :
  get_or_create_device_type (refusing DeviceTypes) "C9300-48P" cisco fresh =
    (Ret {| dt_id := 1; dt_model := "C9300-48P"; dt_manufacturer := 3 |},
     {| remote := stored DeviceTypes
                    {| dt_id := 1; dt_model := "C9300-48P"; dt_manufacturer := 3 |}
                    empty_store;
        log := [Get DeviceTypes [("model", VStr "C9300-48P");
                                 ("manufacturer", VRef 3)];
                Print "[INFO] Creating device type 'C9300-48P' for manufacturer 'Cisco'...";
                Create DeviceTypes [("model", VStr "C9300-48P");
                                    ("manufacturer", VRef 3)] (Some 1)] |}).
Proof.
  apply (proj1 (device_type_lookup_error_is_absence (refusing DeviceTypes)
                  "C9300-48P" cisco fresh "400 Bad Request" eq_refl)).
  reflexivity.
Defined.

(** ** The device resolver *)

Lemma found_devices n i s :
  found Devices [("name", VStr n); ("location", VRef i)] s = devices_at n i s.
Proof.
  unfold found, devices_at. apply filter_ext. intros d.
  unfold matches; simpl. now rewrite andb_true_r.
Qed.

Lemma filter_none {A} (f : A -> bool) l :
  (forall a, In a l -> f a = false) -> filter f l = [].
Proof.
  induction l as [|x l IH]; intros H; simpl; [reflexivity|].
  rewrite (H x (or_introl eq_refl)). apply IH. intros a Ha. apply H. now right.
Qed.

(** C10: on its found path the device resolver does not look at its
    [device_type] and [role] arguments: whenever the lookup on (name,
    location) yields the device [d], the call returns [d] as it is, for
    any device type and role, after one [get] and the warning line and
    without a create. *)
Theorem existing_device_ignores_type_and_role srv device_name location w d :
  let kwargs := [("name", VStr device_name);
                 ("location", VRef (loc_id location))] in
  srv_query_error srv Devices kwargs = None ->
  devices_at device_name (loc_id location) (remote w) = [d] ->
  forall device_type role,
    create_device srv device_name location device_type role w =
      (Ret d,
       emits [Get Devices kwargs;
              Print ("[WARNING] Device '" ++ device_name
                       ++ "' already exists at location '"
                       ++ loc_name location ++ "'.")] w).
Proof.
  intros kwargs Hq Hf device_type role. subst kwargs.
  rewrite <- found_devices in Hf. run_resolver.
  rewrite (get_found _ _ _ _ _ Hq Hf). unfold print, ret.
  now rewrite emit_emit.
Qed.

Lemma existing_device_ignores_type_and_role_witness :
  create_device permissive "myswitch001" my_campus_location
      {| dt_id := 8; dt_model := "MX204"; dt_manufacturer := 3 |} router
      provisioned =
    (Ret myswitch001,
     emits [Get Devices [("name", VStr "myswitch001"); ("location", VRef 2)];
            Print "[WARNING] Device 'myswitch001' already exists at location 'MyCampusLocation'."]
       provisioned).
Proof.
  apply (existing_device_ignores_type_and_role permissive "myswitch001"
           my_campus_location provisioned myswitch001);
    reflexivity.
Defined.

(** C2: the existence check of the device resolver is keyed on the pair
    (name, location).  When every device of that name sits at another
    location, none is taken for a match and the resolver goes through
    its creating branch; when the lookup on (name, location) yields a
    device, the resolver prints the warning line and returns it, so the
    run goes on. *)
Theorem device_keyed_on_name_and_location srv device_name location device_type role w :
  srv_query_error srv Devices
    [("name", VStr device_name); ("location", VRef (loc_id location))] = None ->
  ((forall d, In d (devices (remote w)) ->
              dev_name d = device_name -> dev_location d <> loc_id location) ->
   creates srv (call_device device_name location device_type role) w
     (create_device srv device_name location device_type role w))
  /\ (forall d, devices_at device_name (loc_id location) (remote w) = [d] ->
      create_device srv device_name location device_type role w =
        (Ret d,
         emits [Get Devices [("name", VStr device_name);
                             ("location", VRef (loc_id location))];
                Print ("[WARNING] Device '" ++ device_name
                         ++ "' already exists at location '"
                         ++ loc_name location ++ "'.")] w)).
Proof.
  intros Hq. split.
  - intros Hd.
    apply (resolve_missing srv Devices
             (call_device device_name location device_type role) w Hq).
    cbn [key]. rewrite found_devices. apply filter_none. intros d Hin.
    destruct (String.eqb_spec (dev_name d) device_name) as [E|]; [|reflexivity].
    destruct (N.eqb_spec (dev_location d) (loc_id location)) as [E'|];
      [|reflexivity].
    now destruct (Hd d Hin E).
  - intros d Hf. rewrite <- found_devices in Hf. run_resolver.
    rewrite (get_found _ _ _ _ _ Hq Hf). unfold print, ret.
    now rewrite emit_emit.
Qed.

Lemma device_keyed_on_name_and_location_witness :
  creates permissive
    (call_device "myswitch001" my_campus_location c9300 access_switch)
    switch_elsewhere
    (create_device permissive "myswitch001" my_campus_location c9300
       access_switch switch_elsewhere)
  /\ create_device permissive "myswitch001" other_location c9300
       access_switch switch_elsewhere =
     (Ret {| dev_id := 6; dev_name := "myswitch001"; dev_device_type := 4;
             dev_role := 5; dev_location := 9; dev_status := "Active" |},
      emits [Get Devices [("name", VStr "myswitch001"); ("location", VRef 9)];
             Print "[WARNING] Device 'myswitch001' already exists at location 'Elsewhere'."]
        switch_elsewhere).
Proof.
  split.
  - apply (proj1 (device_keyed_on_name_and_location permissive "myswitch001"
                    my_campus_location c9300 access_switch switch_elsewhere
                    eq_refl)).
    intros d [<- | []] _. discriminate.
  - apply (proj2 (device_keyed_on_name_and_location permissive "myswitch001"
                    other_location c9300 access_switch switch_elsewhere
                    eq_refl)).
    reflexivity.
Defined.

(** On that store the create goes through: the same name is saved a
    second time, at the requested location. *)
Example switch_created_at_second_location :
  create_device permissive "myswitch001" my_campus_location c9300
    access_switch switch_elsewhere =
    (Ret {| dev_id := 10; dev_name := "myswitch001"; dev_device_type := 4;
            dev_role := 5; dev_location := 2; dev_status := "Active" |},
     {| remote := stored Devices
                    {| dev_id := 10; dev_name := "myswitch001";
                       dev_device_type := 4; dev_role := 5;
                       dev_location := 2; dev_status := "Active" |}
                    (remote switch_elsewhere);
        log := [Get Devices [("name", VStr "myswitch001"); ("location", VRef 2)];
                Print "[INFO] Creating new device 'myswitch001'...";
                Create Devices
                  [("name", VStr "myswitch001"); ("device_type", VRef 4);
                   ("role", VRef 5); ("location", VRef 2);
                   ("status", VStr "Active")] (Some 10)] |}).
Proof. reflexivity. Qed.

(** ** The resolver contract *)

(** C7, as the code has it: when the server answers the lookup, a
    resolver that gets exactly one match returns it unchanged after the
    [get] and one printed line; with no match it goes through its
    creating branch (create request with the full payload, then the new
    record, or the error exit when the server rejects it); with more
    than one match the [ValueError] of [get] escapes and no create is
    issued. *)
Theorem resolver_contract srv c (k : Call c) w :
  srv_query_error srv c (key k) = None ->
  match found c (key k) (remote w) with
  | [] => creates srv k w (resolve srv k w)
  | [a] =>
      resolve srv k w =
        (Ret a, emits [Get c (key k); Print (found_line k a)] w)
  | _ :: _ :: _ =>
      resolve srv k w =
        (Raise (ValueError "get() returned more than one result."),
         emits [Get c (key k)] w)
  end.
Proof.
  intros Hq.
  destruct (found c (key k) (remote w)) as [|a [|b l]] eqn:Hf.
  - now apply resolve_missing.
  - now rewrite (resolve_found srv c k w a Hq Hf), emit_emit.
  - now apply resolve_ambiguous with (a := a) (b := b) (l := l).
Qed.

Lemma resolver_contract_witness :
  get_or_create_manufacturer permissive "Cisco" provisioned =
    (Ret cisco,
     emits [Get Manufacturers [("name", VStr "Cisco")];
            Print "[INFO] Found existing manufacturer: Cisco"]
       provisioned).
Proof.
  exact (resolver_contract permissive Manufacturers (call_manufacturer "Cisco")
           provisioned eq_refl).
Defined.

(** With two locations of the same name, the location resolver neither
    returns a record nor issues a create: the claim that every case
    other than exactly one match leads to a create fails here. *)
Lemma two_matches_no_create :
  List.length (found Locations [("name", VStr "MyCampusLocation")]
            (remote two_locations)) = 2%nat
  /\ get_or_create_location permissive "MyCampusLocation" campus two_locations =
       (Raise (ValueError "get() returned more than one result."),
        emits [Get Locations [("name", VStr "MyCampusLocation")]] two_locations)
  /\ existsb is_create
       (log (snd (get_or_create_location permissive "MyCampusLocation" campus
                    two_locations))) = false.
Proof.
  repeat split; reflexivity.
Qed.

(** ** A first run *)

Lemma bind_ret_run {A B} (m : M A) (k : A -> M B) w a w' :
  m w = (Ret a, w') -> bind m k w = k a w'.
Proof.
  unfold bind. now intros ->.
Qed.

Lemma absent_found c k v q s :
  absent c k v s -> found c ((k, v) :: q) s = [].
Proof.
  intros H. unfold found. apply filter_none. intros a Ha.
  unfold matches. cbn [forallb fst snd].
  specialize (H a Ha).
  destruct (attr c a k) as [v'|]; [|reflexivity].
  destruct v' as [x|x|x], v as [y|y|y]; simpl; try reflexivity.
  - destruct (String.eqb_spec x y); [subst; now destruct H | reflexivity].
  - destruct (N.eqb_spec x y); [subst; now destruct H | reflexivity].
  - destruct (list_eq_dec string_dec x y); [subst; now destruct H | reflexivity].
Qed.

Lemma find_fresh c (l : list (Rec c)) (x : Rec c) i n :
  (forall a, In a l -> rec_id c a < n) -> n <= i -> rec_id c x = i ->
  find (fun a => N.eqb (rec_id c a) i) (l ++ [x]) = Some x.
Proof.
  intros Hl Hn Hx. induction l as [|y l IH]; simpl.
  - now rewrite Hx, N.eqb_refl.
  - destruct (N.eqb_spec (rec_id c y) i) as [E|_].
    + specialize (Hl y (or_introl eq_refl)). lia.
    + apply IH. intros a Ha. apply Hl. now right.
Qed.

Lemma fetch_run c i w a :
  find (fun a => N.eqb (rec_id c a) i) (items c (remote w)) = Some a ->
  fetch c i w = (Ret a, w).
Proof.
  unfold fetch. now intros ->.
Qed.

(** Brings the world reached so far back to one record. *)
Ltac tidy :=
  unfold emit;
  cbn [remote log stored next_id location_types locations manufacturers
       device_types roles devices lt_id lt_name loc_id loc_name man_id
       man_name dt_id dt_model dt_manufacturer r_id r_name dev_id dev_name
       dev_device_type dev_role dev_location dev_status key payload
       creating_line found_line failure_line];
  rewrite <- ?app_assoc; cbn [app].

(** The creating branch on a server that accepts the request. *)
Lemma resolve_created srv c (k : Call c) w a :
  srv_query_error srv c (key k) = None ->
  found c (key k) (remote w) = [] ->
  srv_create_error srv (remote w) c (payload k) = None ->
  parse c (next_id (remote w)) (payload k) = Some a ->
  resolve srv k w =
    (Ret a,
     {| remote := stored c a (remote w);
        log := log w ++ [Get c (key k); Print (creating_line k);
                         Create c (payload k) (Some (next_id (remote w)))] |}).
Proof.
  intros Hq Hf Hc Hp.
  generalize (resolve_missing srv c k w Hq Hf). unfold creates.
  rewrite Hc. intros (a' & Hp' & ->). congruence.
Qed.

(** C6: on a server that holds none of the six names, answers every
    query and accepts every create, one run with both environment
    variables set issues exactly six creates, in the order location
    type, location, manufacturer, device type, role, device, each one
    after an unsuccessful lookup and each later one carrying the
    identifiers the earlier ones returned, and then prints the summary
    of the device. *)
Theorem fresh_run srv environ url token w :
  let s := remote w in
  let n := next_id s in
  environ "NAUTOBOT_API_URL" = Some url -> url <> "" ->
  environ "NAUTOBOT_API_TOKEN" = Some token -> token <> "" ->
  answering srv -> accepting srv ->
  nothing_provisioned s -> ids_below s ->
  exists s',
    main srv environ w =
    (Ret tt,
     {| remote := s';
        log := log w ++
    [Connect (Some url) (Some token);
     Get LocationTypes [("name", VStr "Campus")];
     Print "[INFO] Creating location type 'Campus'...";
     Create LocationTypes
       [("name", VStr "Campus");
        ("description", VStr "Created by script for Campus");
        ("content_types", VList ["dcim.device"])] (Some n);
     Get Locations [("name", VStr "MyCampusLocation")];
     Print "[INFO] Creating location 'MyCampusLocation' with type 'Campus'...";
     Create Locations
       [("name", VStr "MyCampusLocation"); ("location_type", VRef n);
        ("status", VStr "Active")] (Some (n + 1));
     Get Manufacturers [("name", VStr "Cisco")];
     Print "[INFO] Creating manufacturer 'Cisco'...";
     Create Manufacturers [("name", VStr "Cisco")] (Some (n + 2));
     Get DeviceTypes [("model", VStr "C9300-48P"); ("manufacturer", VRef (n + 2))];
     Print "[INFO] Creating device type 'C9300-48P' for manufacturer 'Cisco'...";
     Create DeviceTypes
       [("model", VStr "C9300-48P"); ("manufacturer", VRef (n + 2))]
       (Some (n + 3));
     Get Roles [("name", VStr "Access Switch")];
     Print "[INFO] Creating role 'Access Switch' for devices...";
     Create Roles
       [("name", VStr "Access Switch");
        ("description", VStr "Device role for Access Switch");
        ("content_types", VList ["dcim.device"])] (Some (n + 4));
     Get Devices [("name", VStr "myswitch001"); ("location", VRef (n + 1))];
     Print "[INFO] Creating new device 'myswitch001'...";
     Create Devices
       [("name", VStr "myswitch001"); ("device_type", VRef (n + 3));
        ("role", VRef (n + 4)); ("location", VRef (n + 1));
        ("status", VStr "Active")] (Some (n + 5));
     Print "[SUCCESS] Device created or retrieved successfully:";
     Print "  Name:     myswitch001";
     Print "  Location: MyCampusLocation";
     Print "  Role:     Access Switch";
     Print "  Type:     C9300-48P";
     Print "  Status:   Active"] |}).
Proof.
  intros s n Hu Hu' Ht Ht' Hq Hc (A1 & A2 & A3 & A4 & A5 & A6) Hid.
  apply absent_found with (q := []) in A1, A2, A3, A5.
  apply absent_found
    with (q := [("manufacturer", VRef (N.succ (N.succ n)))]) in A4.
  apply absent_found with (q := [("location", VRef (N.succ n))]) in A6.
  assert (F1 := fun x => find_fresh Locations (locations s) x (N.succ n) n
                          (Hid Locations)).
  assert (F2 := fun x => find_fresh Roles (roles s) x
                          (N.succ (N.succ (N.succ (N.succ n)))) n (Hid Roles)).
  assert (F3 := fun x => find_fresh DeviceTypes (device_types s) x
                          (N.succ (N.succ (N.succ n))) n (Hid DeviceTypes)).
  apply String.eqb_neq in Hu', Ht'.
  subst n s. destruct w as [s lg]. cbn [remote log] in *.
  eexists.
  unfold main. rewrite Hu, Ht. cbn [not_]. rewrite Hu', Ht'. cbn [orb].
  erewrite (bind_ret_run (ret tt)) by reflexivity.
  erewrite (bind_ret_run (api _ _)) by reflexivity.
  erewrite bind_ret_run
    by (apply (resolve_created srv _ (call_location_type "Campus"));
        [apply Hq | exact A1 | apply Hc | reflexivity]).
  tidy.
  erewrite bind_ret_run
    by (apply (resolve_created srv _ (call_location "MyCampusLocation" _));
        [apply Hq | exact A2 | apply Hc | reflexivity]).
  tidy.
  erewrite bind_ret_run
    by (apply (resolve_created srv _ (call_manufacturer "Cisco"));
        [apply Hq | exact A3 | apply Hc | reflexivity]).
  tidy.
  erewrite bind_ret_run
    by (apply (resolve_created srv _ (call_device_type "C9300-48P" _));
        [apply Hq | exact A4 | apply Hc | reflexivity]).
  tidy.
  erewrite bind_ret_run
    by (apply (resolve_created srv _ (call_role "Access Switch"));
        [apply Hq | exact A5 | apply Hc | reflexivity]).
  tidy.
  erewrite bind_ret_run
    by (apply (resolve_created srv _ (call_device "myswitch001" _ _ _));
        [apply Hq | exact A6 | apply Hc | reflexivity]).
  tidy. unfold print_result.
  do 2 (erewrite (bind_ret_run (print _)) by reflexivity).
  erewrite (bind_ret_run (fetch Locations _))
    by (apply fetch_run, F1; [lia | reflexivity]).
  erewrite (bind_ret_run (print _)) by reflexivity.
  erewrite (bind_ret_run (fetch Roles _))
    by (apply fetch_run, F2; [lia | reflexivity]).
  erewrite (bind_ret_run (print _)) by reflexivity.
  erewrite (bind_ret_run (fetch DeviceTypes _))
    by (apply fetch_run, F3; [lia | reflexivity]).
  erewrite (bind_ret_run (print _)) by reflexivity.
  unfold print. tidy.
  rewrite <- !N.add_1_r, <- !N.add_assoc. cbn [N.add Pos.add Pos.succ].
  reflexivity.
Qed.

Lemma fresh_run_witness :
  exists s',
    main permissive env_ok fresh =
    (Ret tt,
     {| remote := s';
        log :=
    [Connect (Some "http://localhost:8080") (Some "0123456789abcdef");
     Get LocationTypes [("name", VStr "Campus")];
     Print "[INFO] Creating location type 'Campus'...";
     Create LocationTypes
       [("name", VStr "Campus");
        ("description", VStr "Created by script for Campus");
        ("content_types", VList ["dcim.device"])] (Some 1);
     Get Locations [("name", VStr "MyCampusLocation")];
     Print "[INFO] Creating location 'MyCampusLocation' with type 'Campus'...";
     Create Locations
       [("name", VStr "MyCampusLocation"); ("location_type", VRef 1);
        ("status", VStr "Active")] (Some 2);
     Get Manufacturers [("name", VStr "Cisco")];
     Print "[INFO] Creating manufacturer 'Cisco'...";
     Create Manufacturers [("name", VStr "Cisco")] (Some 3);
     Get DeviceTypes [("model", VStr "C9300-48P"); ("manufacturer", VRef 3)];
     Print "[INFO] Creating device type 'C9300-48P' for manufacturer 'Cisco'...";
     Create DeviceTypes
       [("model", VStr "C9300-48P"); ("manufacturer", VRef 3)] (Some 4);
     Get Roles [("name", VStr "Access Switch")];
     Print "[INFO] Creating role 'Access Switch' for devices...";
     Create Roles
       [("name", VStr "Access Switch");
        ("description", VStr "Device role for Access Switch");
        ("content_types", VList ["dcim.device"])] (Some 5);
     Get Devices [("name", VStr "myswitch001"); ("location", VRef 2)];
     Print "[INFO] Creating new device 'myswitch001'...";
     Create Devices
       [("name", VStr "myswitch001"); ("device_type", VRef 4);
        ("role", VRef 5); ("location", VRef 2);
        ("status", VStr "Active")] (Some 6);
     Print "[SUCCESS] Device created or retrieved successfully:";
     Print "  Name:     myswitch001";
     Print "  Location: MyCampusLocation";
     Print "  Role:     Access Switch";
     Print "  Type:     C9300-48P";
     Print "  Status:   Active"] |}).
Proof.
  apply (fresh_run permissive env_ok "http://localhost:8080"
           "0123456789abcdef" fresh).
  - reflexivity.
  - discriminate.
  - reflexivity.
  - discriminate.
  - intros c q. reflexivity.
  - intros s c d. reflexivity.
  - repeat split; intros a [].
  - intros c a; destruct c; intros [].
Defined.

(** ** A rejected create ends the run *)

Lemma clean_app l1 l2 : clean l1 -> clean l2 -> clean (l1 ++ l2).
Proof.
  unfold clean. intros H1 H2. now rewrite forallb_app, H1, H2.
Qed.

Lemma careful_events_app {A} (out : Outcome A) l1 l2 :
  clean l1 -> careful_events out l2 -> careful_events out (l1 ++ l2).
Proof.
  intros H1 [H2 | (-> & l0 & c & d & line & Hl0 & Hline & ->)].
  - left. now apply clean_app.
  - right. split; [reflexivity|].
    exists (l1 ++ l0)%list, c, d, line. repeat split; trivial.
    + now apply clean_app.
    + now rewrite app_assoc.
Qed.

Lemma careful_ret {A} (a : A) : careful (ret a).
Proof.
  intros w. exists []. simpl. rewrite app_nil_r. split; [reflexivity | now left].
Qed.

Lemma careful_sys_exit {A} code : careful (@sys_exit A code).
Proof.
  intros w. exists []. simpl. rewrite app_nil_r. split; [reflexivity | now left].
Qed.

Lemma careful_print line : careful (print line).
Proof.
  intros w. exists [Print line]. split; [reflexivity | now left].
Qed.

Lemma careful_api url token : careful (api url token).
Proof.
  intros w. exists [Connect url token]. split; [reflexivity | now left].
Qed.

Lemma careful_fetch c i : careful (fetch c i).
Proof.
  intros w. exists []. unfold fetch.
  destruct (find _ _); simpl; rewrite app_nil_r;
    (split; [reflexivity | now left]).
Qed.

Lemma careful_bind {A B} (m : M A) (k : A -> M B) :
  careful m -> (forall a, careful (k a)) -> careful (bind m k).
Proof.
  intros Hm Hk w. unfold bind.
  destruct (Hm w) as (e1 & Hl1 & Hs1).
  destruct (m w) as [[a | code | e] w1]; cbn [fst snd] in *.
  - destruct Hs1 as [Hc | (Hx & _)]; [|discriminate].
    destruct (Hk a w1) as (e2 & Hl2 & Hs2).
    exists (e1 ++ e2)%list. split.
    + now rewrite Hl2, Hl1, app_assoc.
    + now apply careful_events_app.
  - exists e1. split; [assumption|].
    destruct Hs1 as [Hc | (Hx & R)]; [now left|].
    injection Hx as ->. right. split; [reflexivity | exact R].
  - exists e1. split; [assumption|].
    destruct Hs1 as [Hc | (Hx & _)]; [now left | discriminate].
Qed.

Lemma careful_resolve srv c (k : Call c) : careful (resolve srv k).
Proof.
  intros w.
  assert (Hcreates : creates srv k w (resolve srv k w) ->
            exists ext, log (snd (resolve srv k w)) = (log w ++ ext)%list /\
                        careful_events (fst (resolve srv k w)) ext).
  { unfold creates.
    destruct (srv_create_error srv (remote w) c (payload k)) as [e|].
    - intros ->. eexists. split; [reflexivity|]. right. split; [reflexivity|].
      exists [Get c (key k); Print (creating_line k)], c, (payload k),
        (failure_line k e).
      repeat split. apply failure_line_is_error.
    - intros (a & _ & ->). eexists. split; [reflexivity | now left]. }
  destruct (srv_query_error srv c (key k)) as [msg|] eqn:Hq.
  - destruct k;
      try (match goal with
           | |- context [resolve srv ?k w] =>
               rewrite (resolve_lookup_refused srv _ k w msg)
                 by (trivial; discriminate)
           end;
           eexists; split; [reflexivity | now left]).
    apply Hcreates. exact (device_type_lookup_refused srv _ _ w msg Hq).
  - generalize (resolve_answered srv c k w Hq).
    destruct (found c (key k) (remote w)) as [|a [|b l]].
    + exact Hcreates.
    + intros ->. eexists. split; [reflexivity | now left].
    + intros ->. eexists. split; [reflexivity | now left].
Qed.

Lemma careful_print_result d : careful (print_result d).
Proof.
  unfold print_result.
  repeat (apply careful_bind; [| intros ?]);
    auto using careful_print, careful_fetch.
Qed.

Lemma careful_main srv environ : careful (main srv environ).
Proof.
  unfold main.
  apply careful_bind; [| intros _].
  { destruct (_ || _); [| apply careful_ret].
    apply careful_bind; [apply careful_print | intros _; apply careful_sys_exit]. }
  apply careful_bind; [apply careful_api | intros _].
  apply careful_bind;
    [apply (careful_resolve srv _ (call_location_type _)) | intros lt].
  apply careful_bind;
    [apply (careful_resolve srv _ (call_location _ _)) | intros loc].
  apply careful_bind;
    [apply (careful_resolve srv _ (call_manufacturer _)) | intros mf].
  apply careful_bind;
    [apply (careful_resolve srv _ (call_device_type _ _)) | intros dt].
  apply careful_bind;
    [apply (careful_resolve srv _ (call_role _)) | intros r].
  apply careful_bind;
    [apply (careful_resolve srv _ (call_device _ _ _ _)) | intros dev].
  apply careful_print_result.
Qed.

Lemma rejected_is_last l0 f p l1 f' l2 :
  clean l0 -> is_failed_create f' = true -> is_failed_create p = false ->
  (l0 ++ [f; p] = l1 ++ f' :: l2)%list -> l2 = [p].
Proof.
  intros Hl0 Hf' Hp. revert l1.
  induction l0 as [|x l0 IH]; intros l1 E.
  - destruct l1 as [|y [|z l1]]; simpl in E.
    + now inversion E.
    + inversion E; subst. congruence.
    + inversion E as [[E1 E2 E3]]. now destruct l1.
  - unfold clean in Hl0. simpl in Hl0. apply andb_true_iff in Hl0 as [Hx Hl0].
    destruct l1 as [|y l1]; simpl in E; inversion E; subst.
    + rewrite Hf' in Hx. discriminate.
    + now apply (IH Hl0 l1).
Qed.

(** C3: whenever a run of [main] contains a rejected create request,
    whichever of the six it is, the run exits with status 1 and the
    only event after that request is its error line: no later stage
    issues a lookup or a create. *)
Theorem failed_create_is_fatal srv environ w l1 c d l2 :
  log (snd (main srv environ w)) = (log w ++ l1 ++ Create c d None :: l2)%list ->
  fst (main srv environ w) = Exit 1 /\
  exists line, error_line line /\ l2 = [Print line].
Proof.
  intros E.
  destruct (careful_main srv environ w) as (ext & Hl & Hs).
  rewrite Hl in E. apply app_inv_head in E. subst ext.
  destruct Hs as [Hc | (Hx & l0 & c' & d' & line & Hl0 & Hline & E)].
  - unfold clean in Hc. rewrite forallb_app in Hc.
    apply andb_true_iff in Hc as [_ Hc]. simpl in Hc. discriminate.
  - split; [assumption|]. exists line. split; [assumption|].
    symmetry in E. now apply (rejected_is_last l0 _ _ l1 (Create c d None)) in E.
Qed.

Lemma failed_create_is_fatal_witness :
  fst (main (rejecting Manufacturers) env_ok fresh) = Exit 1 /\
  exists line,
    error_line line /\
    [Print "[ERROR] Failed to create manufacturer 'Cisco': 400 Bad Request"]
    = [Print line].
Proof.
  apply (failed_create_is_fatal (rejecting Manufacturers) env_ok fresh
           [Connect (Some "http://localhost:8080") (Some "0123456789abcdef");
            Get LocationTypes [("name", VStr "Campus")];
            Print "[INFO] Creating location type 'Campus'...";
            Create LocationTypes
              [("name", VStr "Campus");
               ("description", VStr "Created by script for Campus");
               ("content_types", VList ["dcim.device"])] (Some 1);
            Get Locations [("name", VStr "MyCampusLocation")];
            Print "[INFO] Creating location 'MyCampusLocation' with type 'Campus'...";
            Create Locations
              [("name", VStr "MyCampusLocation"); ("location_type", VRef 1);
               ("status", VStr "Active")] (Some 2);
            Get Manufacturers [("name", VStr "Cisco")];
            Print "[INFO] Creating manufacturer 'Cisco'..."]
           Manufacturers [("name", VStr "Cisco")]).
  reflexivity.
Defined.

(** Each of the six stages can be the one that fails. *)
Example every_stage_can_fail c :
  fst (main (rejecting c) env_ok fresh) = Exit 1 /\
  existsb is_failed_create (log (snd (main (rejecting c) env_ok fresh))) = true.
Proof.
  destruct c; split; reflexivity.
Qed.

(** ** Nothing is deleted or changed *)

Lemma items_stored_same c a s : items c (stored c a s) = (items c s ++ [a])%list.
Proof. destruct c; reflexivity. Qed.

Lemma items_stored_other c c' a s :
  c' <> c -> items c' (stored c a s) = items c' s.
Proof. destruct c, c'; intros H; try reflexivity; now destruct H. Qed.

Lemma extends_refl s : extends s s.
Proof. intros c. exists []. now rewrite app_nil_r. Qed.

Lemma extends_trans s1 s2 s3 : extends s1 s2 -> extends s2 s3 -> extends s1 s3.
Proof.
  intros H1 H2 c. destruct (H1 c) as [l1 E1], (H2 c) as [l2 E2].
  exists (l1 ++ l2)%list. now rewrite E2, E1, app_assoc.
Qed.

Lemma extends_stored c a s : extends s (stored c a s).
Proof.
  intros c'. destruct c, c'; simpl;
    try (exists []; now rewrite app_nil_r); now exists [a].
Qed.

Lemma extends_In s s' c a : extends s s' -> In a (items c s) -> In a (items c s').
Proof.
  intros H Ha. destruct (H c) as [l ->]. apply in_or_app. now left.
Qed.

Lemma keeps_refl w : keeps w w.
Proof.
  split; [apply extends_refl|]. exists []. rewrite app_nil_r.
  split; [reflexivity | intros c d i []].
Qed.

Lemma keeps_trans w1 w2 w3 : keeps w1 w2 -> keeps w2 w3 -> keeps w1 w3.
Proof.
  intros (X1 & e1 & L1 & C1) (X2 & e2 & L2 & C2).
  split; [now apply extends_trans with (remote w2)|].
  exists (e1 ++ e2)%list. split; [now rewrite L2, L1, app_assoc|].
  intros c d i Hin. apply in_app_or in Hin as [Hin | Hin].
  - destruct (C1 c d i Hin) as (a & Hp & Ha).
    exists a. split; [assumption | now apply (extends_In _ _ _ _ X2)].
  - now apply C2.
Qed.

(** Events other than a successful create leave the store alone. *)
Lemma keeps_emits l w :
  (forall c d i, ~ In (Create c d (Some i)) l) -> keeps w (emits l w).
Proof.
  intros H. split; [apply extends_refl|]. exists l.
  split; [reflexivity|]. intros c d i Hin. now destruct (H c d i).
Qed.

Lemma conservative_ret {A} (a : A) : conservative (ret a).
Proof. intros w. apply keeps_refl. Qed.

Lemma conservative_sys_exit {A} code : conservative (@sys_exit A code).
Proof. intros w. apply keeps_refl. Qed.

Lemma conservative_print line : conservative (print line).
Proof.
  intros w. apply (keeps_emits [Print line]).
  intros c d i [E | []]. discriminate.
Qed.

Lemma conservative_api url token : conservative (api url token).
Proof.
  intros w. apply (keeps_emits [Connect url token]).
  intros c d i [E | []]. discriminate.
Qed.

Lemma conservative_fetch c i : conservative (fetch c i).
Proof.
  intros w. unfold fetch. destruct (find _ _); apply keeps_refl.
Qed.

Lemma conservative_get srv c q : conservative (get srv c q).
Proof.
  intros w. unfold get.
  assert (H : keeps w (emit (Get c q) w)).
  { apply (keeps_emits [Get c q]). intros c' d i [E | []]. discriminate. }
  destruct (srv_query_error srv c q); [exact H|].
  destruct (filter _ _) as [|a [|b l]]; exact H.
Qed.

Lemma conservative_create srv c d : conservative (create srv c d).
Proof.
  intros w. unfold create.
  assert (H : keeps w (emit (Create c d None) w)).
  { apply (keeps_emits [Create c d None]). intros c' d' i [E | []]. discriminate. }
  destruct (srv_create_error srv (remote w) c d); [exact H|].
  destruct (parse c (next_id (remote w)) d) as [a|] eqn:Hp; [|exact H].
  cbn [snd]. split; [apply extends_stored|].
  eexists. split; [reflexivity|].
  intros c' d' i [E | []]. injection E as <- <- <-.
  exists a. split; [exact Hp|]. cbn [remote].
  rewrite items_stored_same. apply in_or_app. right. now left.
Qed.

Lemma conservative_bind {A B} (m : M A) (k : A -> M B) :
  conservative m -> (forall a, conservative (k a)) -> conservative (bind m k).
Proof.
  intros Hm Hk w. unfold bind. specialize (Hm w).
  destruct (m w) as [[a | code | e] w1]; cbn [snd] in *; trivial.
  now apply keeps_trans with w1, Hk.
Qed.

Lemma conservative_try_except {A} (m : M A) h :
  conservative m -> (forall e, conservative (h e)) ->
  conservative (try_except m h).
Proof.
  intros Hm Hh w. unfold try_except. specialize (Hm w).
  destruct (m w) as [[a | code | [msg | msg]] w1]; cbn [snd] in *; trivial.
  now apply keeps_trans with w1, Hh.
Qed.

Create HintDb conservative.

#[local] Hint Resolve conservative_ret conservative_sys_exit
  conservative_print conservative_api conservative_fetch conservative_get
  conservative_create : conservative.

Ltac conserve :=
  repeat first
    [ apply conservative_bind; [| intros ?]
    | apply conservative_try_except; [| intros ?]
    | match goal with |- conservative (match ?x with _ => _ end) => destruct x end
    | match goal with
      | |- conservative (create ?s ?c ?d) => exact (conservative_create s c d)
      | |- conservative (get ?s ?c ?q) => exact (conservative_get s c q)
      | |- conservative (fetch ?c ?i) => exact (conservative_fetch c i)
      end
    | solve [auto with conservative] ].

Lemma conservative_resolve srv c (k : Call c) : conservative (resolve srv k).
Proof.
  destruct k; cbn [resolve];
    unfold get_or_create_location_type, get_or_create_location,
      get_or_create_manufacturer, get_or_create_device_type,
      get_or_create_role, create_device;
    conserve.
Qed.

Lemma conservative_main srv environ : conservative (main srv environ).
Proof.
  unfold main, print_result, get_or_create_location_type,
    get_or_create_location, get_or_create_manufacturer,
    get_or_create_device_type, get_or_create_role, create_device.
  cbv zeta. conserve.
Qed.

(** C8: when a run of [main] fails, whatever it created before is still
    there: every collection of the final store is the initial one with
    records appended, and every record a create request of this run
    returned is in the final store as the server built it.  The exit
    path deletes and updates nothing. *)
Theorem failed_run_keeps_what_it_created srv environ w :
  fst (main srv environ w) <> Ret tt ->
  keeps w (snd (main srv environ w)).
Proof.
  intros _. apply conservative_main.
Qed.

Lemma failed_run_keeps_what_it_created_witness :
  keeps fresh (snd (main (rejecting Roles) env_ok fresh)).
Proof.
  apply (failed_run_keeps_what_it_created (rejecting Roles) env_ok fresh).
  discriminate.
Defined.

(** The store that failed run leaves behind: the four records created
    before the role was rejected. *)
Example orphans_after_rejected_role :
  main (rejecting Roles) env_ok fresh =
    (Exit 1,
     {| remote :=
          {| location_types := [campus]; locations := [my_campus_location];
             manufacturers := [cisco]; device_types := [c9300];
             roles := []; devices := []; next_id := 5 |};
        log := log (snd (main (rejecting Roles) env_ok fresh)) |}).
Proof. reflexivity. Qed.

(** ** A second run *)

Lemma bind_ret_inv {A B} (m : M A) (k : A -> M B) w b w' :
  bind m k w = (Ret b, w') ->
  exists a w1, m w = (Ret a, w1) /\ k a w1 = (Ret b, w').
Proof.
  unfold bind. destruct (m w) as [[a | code | e] w1]; intros H;
    try discriminate.
  now exists a, w1.
Qed.

(** After a resolver call has returned a record, that record is the one
    match of its key, and no other collection has changed. *)
Lemma resolve_ret_post srv c (k : Call c) w a w' :
  (c = DeviceTypes -> srv_query_error srv c (key k) = None) ->
  resolve srv k w = (Ret a, w') ->
  srv_query_error srv c (key k) = None /\
  found c (key k) (remote w') = [a] /\
  (forall c', c' <> c -> items c' (remote w') = items c' (remote w)).
Proof.
  intros Hdt Hrun.
  destruct (srv_query_error srv c (key k)) as [msg|] eqn:Hq.
  - destruct k; try (now discriminate (Hdt eq_refl));
      match type of Hrun with
      | resolve srv ?k w = _ =>
          rewrite (resolve_lookup_refused srv _ k w msg) in Hrun
            by (trivial; discriminate)
      end; discriminate.
  - split; [reflexivity|].
    generalize (resolve_answered srv c k w Hq).
    destruct (found c (key k) (remote w)) as [|a0 [|b l]] eqn:Hf.
    + unfold creates.
      destruct (srv_create_error srv (remote w) c (payload k)) as [e|].
      * rewrite Hrun. discriminate.
      * rewrite Hrun. intros (a' & Hp & E). injection E as -> ->.
        cbn [remote]. split.
        -- unfold found in *. rewrite items_stored_same, filter_app, Hf.
           destruct (parse_payload c k (next_id (remote w))) as (a'' & Hp' & _ & Hm).
           rewrite Hp in Hp'. injection Hp' as <-.
           simpl. now rewrite Hm.
        -- intros c' Hc'. now apply items_stored_other.
    + rewrite Hrun. intros E. injection E as -> ->. now split.
    + rewrite Hrun. discriminate.
Qed.

Lemma print_result_run d w l r t :
  find (fun a => N.eqb (loc_id a) (dev_location d)) (locations (remote w)) = Some l ->
  find (fun a => N.eqb (r_id a) (dev_role d)) (roles (remote w)) = Some r ->
  find (fun a => N.eqb (dt_id a) (dev_device_type d)) (device_types (remote w)) = Some t ->
  print_result d w = (Ret tt, emits (map Print (summary d l r t)) w).
Proof.
  intros Hl Hr Ht. unfold print_result, bind, print, fetch, emit.
  change (Rec Locations) with Location; change (Rec Roles) with Role;
  change (Rec DeviceTypes) with DeviceType.
  cbn [remote items rec_id]. rewrite Hl. cbn [remote items rec_id].
  rewrite Hr. cbn [remote items rec_id]. rewrite Ht.
  unfold emits. cbn [remote log map summary].
  now rewrite <- !app_assoc.
Qed.

Lemma print_result_inv d w w' :
  print_result d w = (Ret tt, w') ->
  exists l r t,
    find (fun a => N.eqb (loc_id a) (dev_location d)) (locations (remote w)) = Some l /\
    find (fun a => N.eqb (r_id a) (dev_role d)) (roles (remote w)) = Some r /\
    find (fun a => N.eqb (dt_id a) (dev_device_type d)) (device_types (remote w)) = Some t /\
    w' = emits (map Print (summary d l r t)) w.
Proof.
  intros H.
  destruct (find (fun a => N.eqb (loc_id a) (dev_location d))
              (locations (remote w))) as [l|] eqn:Hl;
    [| unfold print_result, bind, print, fetch, emit in H;
       change (Rec Locations) with Location in H;
       change (Rec Roles) with Role in H;
       change (Rec DeviceTypes) with DeviceType in H;
       cbn [remote items rec_id] in H; rewrite Hl in H; discriminate].
  destruct (find (fun a => N.eqb (r_id a) (dev_role d))
              (roles (remote w))) as [r|] eqn:Hr;
    [| unfold print_result, bind, print, fetch, emit in H;
       change (Rec Locations) with Location in H;
       change (Rec Roles) with Role in H;
       change (Rec DeviceTypes) with DeviceType in H;
       cbn [remote items rec_id] in H; rewrite Hl in H;
       cbn [remote items rec_id] in H; rewrite Hr in H; discriminate].
  destruct (find (fun a => N.eqb (dt_id a) (dev_device_type d))
              (device_types (remote w))) as [t|] eqn:Ht;
    [| unfold print_result, bind, print, fetch, emit in H;
       change (Rec Locations) with Location in H;
       change (Rec Roles) with Role in H;
       change (Rec DeviceTypes) with DeviceType in H;
       cbn [remote items rec_id] in H; rewrite Hl in H;
       cbn [remote items rec_id] in H; rewrite Hr in H;
       cbn [remote items rec_id] in H; rewrite Ht in H; discriminate].
  exists l, r, t. repeat split.
  rewrite (print_result_run d w l r t Hl Hr Ht) in H. now injection H.
Qed.

(** C1, as the code has it: a resolver call whose lookup the server
    answers with the one record carrying the key performs that lookup,
    prints one line and returns the record; the store is untouched and
    no create is issued.  Hence, after a run of [main] that went
    through, a second run on the state the first one left, on a server
    that answers the device-type lookup, performs the six lookups and
    no create, and ends with the same summary lines as the first.  (A
    refused device-type lookup counts as "not found", so there the
    create is sent even though the device type exists.) *)
Theorem existing_entities_are_reused srv :
  (forall c (k : Call c) w a,
      srv_query_error srv c (key k) = None ->
      found c (key k) (remote w) = [a] ->
      resolve srv k w =
        (Ret a, emits [Get c (key k); Print (found_line k a)] w))
  /\
  (forall environ w w1,
      (forall q, srv_query_error srv DeviceTypes q = None) ->
      main srv environ w = (Ret tt, w1) ->
      exists lt loc mf dt r dev l' r' t' before,
        log w1 = (before ++ map Print (summary dev l' r' t'))%list /\
        let events :=
          (lookups_only (environ "NAUTOBOT_API_URL")
             (environ "NAUTOBOT_API_TOKEN") lt loc mf dt r
           ++ map Print (summary dev l' r' t'))%list in
        main srv environ w1 = (Ret tt, emits events w1) /\
        List.length (filter is_get events) = 6%nat /\
        filter is_create events = []).
Proof.
  split.
  { intros c k w a Hq Hf.
    now rewrite (resolve_found srv c k w a Hq Hf), emit_emit. }
  intros environ w w1 Hdt Hrun.
  unfold main in Hrun. cbv zeta in Hrun.
  destruct (not_ (environ "NAUTOBOT_API_URL")
            || not_ (environ "NAUTOBOT_API_TOKEN")) eqn:Henv;
    [discriminate Hrun|].
  apply bind_ret_inv in Hrun as ([] & wa & Ha & Hrun).
  apply bind_ret_inv in Hrun as ([] & w0 & H0 & Hrun).
  apply bind_ret_inv in Hrun as (lt & w1' & H1 & Hrun).
  apply bind_ret_inv in Hrun as (loc & w2 & H2 & Hrun).
  apply bind_ret_inv in Hrun as (mf & w3 & H3 & Hrun).
  apply bind_ret_inv in Hrun as (dt & w4 & H4 & Hrun).
  apply bind_ret_inv in Hrun as (r & w5 & H5 & Hrun).
  apply bind_ret_inv in Hrun as (dev & w6 & H6 & Hrun).
  apply (resolve_ret_post srv _ (call_location_type _)) in H1
    as (Q1 & F1 & Fr1); [|discriminate].
  apply (resolve_ret_post srv _ (call_location _ _)) in H2
    as (Q2 & F2 & Fr2); [|discriminate].
  apply (resolve_ret_post srv _ (call_manufacturer _)) in H3
    as (Q3 & F3 & Fr3); [|discriminate].
  apply (resolve_ret_post srv _ (call_device_type _ _)) in H4
    as (Q4 & F4 & Fr4); [|intros _; apply Hdt].
  apply (resolve_ret_post srv _ (call_role _)) in H5
    as (Q5 & F5 & Fr5); [|discriminate].
  apply (resolve_ret_post srv _ (call_device _ _ _ _)) in H6
    as (Q6 & F6 & Fr6); [|discriminate].
  apply print_result_inv in Hrun as (l' & r' & t' & Hl & Hr & Ht & Hw1).
  assert (R : remote w1 = remote w6) by (subst w1; reflexivity).
  unfold found in *.
  assert (G1 : found LocationTypes (key (call_location_type "Campus"))
                 (remote w1) = [lt]).
  { unfold found. rewrite R, Fr6, Fr5, Fr4, Fr3, Fr2 by discriminate.
    exact F1. }
  assert (G2 : found Locations (key (call_location "MyCampusLocation" lt))
                 (remote w1) = [loc]).
  { unfold found. rewrite R, Fr6, Fr5, Fr4, Fr3 by discriminate. exact F2. }
  assert (G3 : found Manufacturers (key (call_manufacturer "Cisco"))
                 (remote w1) = [mf]).
  { unfold found. rewrite R, Fr6, Fr5, Fr4 by discriminate. exact F3. }
  assert (G4 : found DeviceTypes (key (call_device_type "C9300-48P" mf))
                 (remote w1) = [dt]).
  { unfold found. rewrite R, Fr6, Fr5 by discriminate. exact F4. }
  assert (G5 : found Roles (key (call_role "Access Switch"))
                 (remote w1) = [r]).
  { unfold found. rewrite R, Fr6 by discriminate. exact F5. }
  assert (G6 : found Devices (key (call_device "myswitch001" loc dt r))
                 (remote w1) = [dev]).
  { unfold found. rewrite R. exact F6. }
  exists lt, loc, mf, dt, r, dev, l', r', t', (log w6).
  split; [subst w1; reflexivity|].
  cbv zeta. split; [| split; reflexivity].
  unfold main. cbv zeta. rewrite Henv.
  erewrite (bind_ret_run (ret tt)) by reflexivity.
  erewrite (bind_ret_run (api _ _)) by reflexivity.
  erewrite bind_ret_run
    by (apply (resolve_found srv _ (call_location_type "Campus"));
        [exact Q1 | exact G1]).
  erewrite bind_ret_run
    by (apply (resolve_found srv _ (call_location "MyCampusLocation" lt));
        [exact Q2 | exact G2]).
  erewrite bind_ret_run
    by (apply (resolve_found srv _ (call_manufacturer "Cisco"));
        [exact Q3 | exact G3]).
  erewrite bind_ret_run
    by (apply (resolve_found srv _ (call_device_type "C9300-48P" mf));
        [exact Q4 | exact G4]).
  erewrite bind_ret_run
    by (apply (resolve_found srv _ (call_role "Access Switch"));
        [exact Q5 | exact G5]).
  erewrite bind_ret_run
    by (apply (resolve_found srv _ (call_device "myswitch001" loc dt r));
        [exact Q6 | exact G6]).
  rewrite (print_result_run dev _ l' r' t')
    by (unfold emit, api; cbn [remote]; rewrite R; assumption).
  unfold emits, emit, api, lookups_only.
  cbn [remote log key found_line fst snd].
  now rewrite <- !app_assoc.
Qed.

Lemma existing_entities_are_reused_witness :
  get_or_create_role permissive "Access Switch" provisioned =
    (Ret access_switch,
     emits [Get Roles [("name", VStr "Access Switch")];
            Print "[INFO] Found existing role: Access Switch"] provisioned)
  /\
  let w1 := snd (main permissive env_ok fresh) in
  exists lt loc mf dt r dev l' r' t' before,
    log w1 = (before ++ map Print (summary dev l' r' t'))%list /\
    let events :=
      (lookups_only (env_ok "NAUTOBOT_API_URL") (env_ok "NAUTOBOT_API_TOKEN")
         lt loc mf dt r
       ++ map Print (summary dev l' r' t'))%list in
    main permissive env_ok w1 = (Ret tt, emits events w1) /\
    List.length (filter is_get events) = 6%nat /\
    filter is_create events = [].
Proof.
  split.
  - apply (proj1 (existing_entities_are_reused permissive) Roles
             (call_role "Access Switch") provisioned access_switch);
      reflexivity.
  - apply (proj2 (existing_entities_are_reused permissive) env_ok fresh
             (snd (main permissive env_ok fresh)));
      [intros q | ]; reflexivity.
Defined.

(** The second run on a fresh permissive server, event by event. *)
Example second_run_on_fresh_server :
  let w1 := snd (main permissive env_ok fresh) in
  remote (snd (main permissive env_ok w1)) = remote w1 /\
  main permissive env_ok {| remote := remote w1; log := [] |} =
    (Ret tt,
     {| remote := remote w1;
        log :=
          [Connect (Some "http://localhost:8080") (Some "0123456789abcdef");
           Get LocationTypes [("name", VStr "Campus")];
           Print "[INFO] Found existing location type: Campus";
           Get Locations [("name", VStr "MyCampusLocation")];
           Print "[INFO] Found existing location: MyCampusLocation";
           Get Manufacturers [("name", VStr "Cisco")];
           Print "[INFO] Found existing manufacturer: Cisco";
           Get DeviceTypes [("model", VStr "C9300-48P"); ("manufacturer", VRef 3)];
           Print "[INFO] Found existing device type: C9300-48P";
           Get Roles [("name", VStr "Access Switch")];
           Print "[INFO] Found existing role: Access Switch";
           Get Devices [("name", VStr "myswitch001"); ("location", VRef 2)];
           Print "[WARNING] Device 'myswitch001' already exists at location 'MyCampusLocation'.";
           Print "[SUCCESS] Device created or retrieved successfully:";
           Print "  Name:     myswitch001";
           Print "  Location: MyCampusLocation";
           Print "  Role:     Access Switch";
           Print "  Type:     C9300-48P";
           Print "  Status:   Active"] |}).
Proof.
  split; reflexivity.
Qed.

(** On a server that refuses the device-type lookup, an existing device
    type is not reused: the resolver treats the refusal as "not found"
    and sends the create, so the device type is saved a second time.
    Likewise the first run of [main] on such a server goes through, and
    so does the second one, which sends the device-type create again:
    the claim that an existing entity always means a lookup only, and a
    second run no create, fails here. *)
Lemma refused_lookup_creates_existing_device_type :
  found DeviceTypes
    [("model", VStr "C9300-48P"); ("manufacturer", VRef 3)]
    (remote provisioned) = [c9300]
  /\ get_or_create_device_type (refusing DeviceTypes) "C9300-48P" cisco
       provisioned =
     (Ret {| dt_id := 7; dt_model := "C9300-48P"; dt_manufacturer := 3 |},
      {| remote :=
           {| location_types := [campus]; locations := [my_campus_location];
              manufacturers := [cisco];
              device_types :=
                [c9300;
                 {| dt_id := 7; dt_model := "C9300-48P";
                    dt_manufacturer := 3 |}];
              roles := [access_switch]; devices := [myswitch001];
              next_id := 8 |};
         log := [Get DeviceTypes [("model", VStr "C9300-48P");
                                  ("manufacturer", VRef 3)];
                 Print "[INFO] Creating device type 'C9300-48P' for manufacturer 'Cisco'...";
                 Create DeviceTypes [("model", VStr "C9300-48P");
                                     ("manufacturer", VRef 3)] (Some 7)] |})
  /\ (let w1 := snd (main (refusing DeviceTypes) env_ok fresh) in
      fst (main (refusing DeviceTypes) env_ok fresh) = Ret tt /\
      fst (main (refusing DeviceTypes) env_ok
             {| remote := remote w1; log := [] |}) = Ret tt /\
      filter is_create
        (log (snd (main (refusing DeviceTypes) env_ok
                     {| remote := remote w1; log := [] |}))) =
        [Create DeviceTypes
           [("model", VStr "C9300-48P"); ("manufacturer", VRef 3)] (Some 7)]).
Proof.
  repeat split; reflexivity.
Qed.

(** * Further properties of the resolvers *)

Lemma creates_resolution srv c (k : Call c) w :
  lookup_missed srv k w ->
  creates srv k w (resolve srv k w) ->
  resolution srv k w (resolve srv k w).
Proof.
  intros Hm. unfold creates.
  destruct (srv_create_error srv (remote w) c (payload k)) as [e|] eqn:Hc.
  - intros ->. now apply res_rejected.
  - intros (a & Hp & ->). now apply res_created.
Qed.

Lemma resolve_resolution srv c (k : Call c) w :
  resolution srv k w (resolve srv k w).
Proof.
  destruct (srv_query_error srv c (key k)) as [msg|] eqn:Hq.
  - destruct k;
      try (match goal with
           | |- resolution srv ?k w _ =>
               rewrite (resolve_lookup_refused srv _ k w msg)
                 by (trivial; discriminate)
           end;
           apply res_escaped; left; split; [discriminate|];
           exists msg; now split).
    apply creates_resolution.
    + right. split; [reflexivity|]. cbn [key] in *. congruence.
    + exact (device_type_lookup_refused srv _ _ w msg Hq).
  - generalize (resolve_answered srv c k w Hq).
    destruct (found c (key k) (remote w)) as [|a [|b l]] eqn:Hf.
    + apply creates_resolution. left. now split.
    + intros ->. now apply res_found.
    + intros ->. apply res_escaped. right. rewrite Hf.
      repeat split; trivial. simpl. lia.
Qed.

(** X1: every call of every resolver ends in one of four ways: the record
    found, after the lookup and one line; the record created, after the
    lookup, the announcement and the accepted create request; exit
    status 1, after the rejected create request and its error line; or
    an exception escaping right after the lookup, when the server
    refused it (device types excepted) or answered with several
    records. *)
Theorem resolve_outcomes srv c (k : Call c) w :
  resolution srv k w (resolve srv k w).
Proof.
  apply resolve_resolution.
Qed.

Lemma Value_eqb_eq a b : Value_eqb a b = true -> a = b.
Proof.
  destruct a as [x|x|x], b as [y|y|y]; simpl; try discriminate.
  - intros H. apply String.eqb_eq in H. now subst.
  - intros H. apply N.eqb_eq in H. now subst.
  - destruct (list_eq_dec string_dec x y); [now subst | discriminate].
Qed.

Lemma matches_attr c q (a : Rec c) f v :
  matches c q a = true -> In (f, v) q -> attr c a f = Some v.
Proof.
  unfold matches. rewrite forallb_forall. intros H Hin.
  specialize (H (f, v) Hin). cbn [fst snd] in H.
  destruct (attr c a f) as [v'|]; [|discriminate].
  now rewrite (Value_eqb_eq v' v H).
Qed.

Lemma found_one_matches c q s (a : Rec c) :
  found c q s = [a] -> In a (items c s) /\ matches c q a = true.
Proof.
  unfold found. intros H.
  assert (Ha : In a (filter (matches c q) (items c s)))
    by (rewrite H; now left).
  now apply filter_In in Ha.
Qed.

Lemma resolve_ret_keyed srv c (k : Call c) w a w' :
  resolve srv k w = (Ret a, w') ->
  In a (items c (remote w')) /\
  forall f v, In (f, v) (key k) -> attr c a f = Some v.
Proof.
  intros Hrun. generalize (resolve_resolution srv c k w). rewrite Hrun.
  intros R. inversion R as [a0 Hq Hf E | a0 Hm Hc Hp E | |]; subst.
  - apply found_one_matches in Hf as [Hin Hm].
    split; [exact Hin|]. intros f v. now apply matches_attr.
  - destruct (parse_payload c k (next_id (remote w))) as (a' & Hp' & _ & Hm').
    rewrite Hp in Hp'. injection Hp' as <-.
    split.
    + cbn [remote]. rewrite items_stored_same. apply in_or_app. right. now left.
    + intros f v. now apply matches_attr.
Qed.

(** X2: a record returned by a resolver call is on the server when the call
    returns and carries the key the call looked up: each keyword
    argument of the lookup is an attribute of the record, with that
    value. *)
Theorem resolved_record_carries_key srv c (k : Call c) w a w' :
  resolve srv k w = (Ret a, w') ->
  In a (items c (remote w')) /\
  forall f v, In (f, v) (key k) -> attr c a f = Some v.
Proof.
  apply resolve_ret_keyed.
Qed.

Lemma resolved_record_carries_key_witness :
  In myswitch001 (items Devices (remote provisioned)) /\
  forall f v,
    In (f, v) [("name", VStr "myswitch001"); ("location", VRef 2)] ->
    attr Devices myswitch001 f = Some v.
Proof.
  apply (resolved_record_carries_key permissive Devices
           (call_device "myswitch001" my_campus_location c9300 access_switch)
           provisioned myswitch001
           (emits [Get Devices [("name", VStr "myswitch001");
                                ("location", VRef 2)];
                   Print "[WARNING] Device 'myswitch001' already exists at location 'MyCampusLocation'."]
              provisioned)).
  reflexivity.
Defined.

(** X3: a resolver call leaves every other collection as it was, whatever
    its outcome, and its own collection either as it was or with the
    one record it returns added at the end. *)
Theorem resolver_touches_own_collection_only srv c (k : Call c) w :
  let w' := snd (resolve srv k w) in
  (forall c', c' <> c -> items c' (remote w') = items c' (remote w)) /\
  (items c (remote w') = items c (remote w) \/
   exists a, fst (resolve srv k w) = Ret a /\
             items c (remote w') = (items c (remote w) ++ [a])%list).
Proof.
  cbv zeta. generalize (resolve_resolution srv c k w).
  intros R. inversion R as [a Hq Hf E | a Hm Hc Hp E | e Hm Hc E | e He E];
    cbn [fst snd remote emits].
  - split; [reflexivity | now left].
  - split; [intros c' Hc'; now apply items_stored_other|].
    right. exists a. split; [reflexivity | apply items_stored_same].
  - split; [reflexivity | now left].
  - split; [reflexivity | now left].
Qed.

(** X4: calling a resolver again, with the same arguments, in the world its
    first call returned in, is a lookup and nothing more: the same
    record comes back and no second create is sent (the lookup being
    one the server answers). *)
Theorem resolver_is_idempotent srv c (k : Call c) w a w' :
  srv_query_error srv c (key k) = None ->
  resolve srv k w = (Ret a, w') ->
  resolve srv k w' =
    (Ret a, emits [Get c (key k); Print (found_line k a)] w').
Proof.
  intros Hq Hrun.
  apply resolve_ret_post in Hrun as (_ & Hf & _); [|now intros _].
  now rewrite (resolve_found srv c k w' a Hq Hf), emit_emit.
Qed.

Lemma resolver_is_idempotent_witness :
  let w' := snd (get_or_create_manufacturer permissive "Cisco" fresh) in
  get_or_create_manufacturer permissive "Cisco" w' =
    (Ret {| man_id := 1; man_name := "Cisco" |},
     emits [Get Manufacturers [("name", VStr "Cisco")];
            Print "[INFO] Found existing manufacturer: Cisco"] w').
Proof.
  apply (resolver_is_idempotent permissive Manufacturers
           (call_manufacturer "Cisco") fresh
           {| man_id := 1; man_name := "Cisco" |});
    reflexivity.
Defined.

Lemma resolver_touches_own_collection_only_witness :
  items Roles (remote (snd (get_or_create_manufacturer permissive "Cisco" fresh)))
  = items Roles (remote fresh).
Proof.
  apply (proj1 (resolver_touches_own_collection_only permissive Manufacturers
                  (call_manufacturer "Cisco") fresh)).
  discriminate.
Defined.

(** * Further properties of whole runs *)

Lemma appends_bind {A B} (P : Outcome A -> list Event -> Prop)
    (Q R : Outcome B -> list Event -> Prop) (m : M A) (k : A -> M B) :
  appends P m -> (forall a, appends Q (k a)) ->
  (forall a e1 out e2, P (Ret a) e1 -> Q out e2 -> R out (e1 ++ e2)%list) ->
  (forall code e1, P (Exit code) e1 -> R (Exit code) e1) ->
  (forall e e1, P (Raise e) e1 -> R (Raise e) e1) ->
  appends R (bind m k).
Proof.
  intros Hm Hk Hseq Hexit Hraise w. unfold bind.
  destruct (Hm w) as (e1 & L1 & P1).
  destruct (m w) as [[a | code | e] w1]; cbn [fst snd] in *.
  - destruct (Hk a w1) as (e2 & L2 & Q2).
    exists (e1 ++ e2)%list. split; [now rewrite L2, L1, app_assoc|].
    now apply Hseq with a.
  - exists e1. split; [assumption | now apply Hexit].
  - exists e1. split; [assumption | now apply Hraise].
Qed.

Lemma appends_seq (I : forall A, Outcome A -> list Event -> Prop) {A B}
    (m : M A) (k : A -> M B) :
  sequential I ->
  appends (I A) m -> (forall a, appends (I B) (k a)) ->
  appends (I B) (bind m k).
Proof.
  intros (Hseq & Hexit & Hraise) Hm Hk.
  apply (appends_bind (I A) (I B) (I B)); trivial.
  - intros a e1 out e2. apply Hseq.
  - intros code e1. apply Hexit.
  - intros e e1. apply Hraise.
Qed.

(** What it takes for a sequential property to hold of every resolver
    call: that it holds of the four shapes a call can have. *)
Lemma resolve_invariant (I : forall A, Outcome A -> list Event -> Prop) srv :
  (forall c (k : Call c) a,
      I (Rec c) (Ret a) [Get c (key k); Print (found_line k a)]) ->
  (forall c (k : Call c) a i,
      I (Rec c) (Ret a)
        [Get c (key k); Print (creating_line k);
         Create c (payload k) (Some i)]) ->
  (forall c (k : Call c) e,
      I (Rec c) (Exit 1)
        [Get c (key k); Print (creating_line k);
         Create c (payload k) None; Print (failure_line k e)]) ->
  (forall c (k : Call c) e, I (Rec c) (Raise e) [Get c (key k)]) ->
  forall c (k : Call c), appends (I (Rec c)) (resolve srv k).
Proof.
  intros Hfound Hcreated Hrejected Hescaped c k w.
  destruct (resolve_resolution srv c k w); eexists; (split; [reflexivity|]);
    cbn [fst]; auto.
Qed.

Lemma print_result_invariant (I : forall A, Outcome A -> list Event -> Prop) d :
  sequential I ->
  (forall line, String.prefix "[ERROR]" line = false ->
                I unit (Ret tt) [Print line]) ->
  (forall A (a : A), I A (Ret a) []) ->
  (forall A e, I A (Raise e) []) ->
  appends (I unit) (print_result d).
Proof.
  intros Hs Hprint Hret Hraise.
  assert (Hp : forall line, String.prefix "[ERROR]" line = false ->
                            appends (I unit) (print line)).
  { intros line Hl w. exists [Print line]. split; [reflexivity|].
    now apply Hprint. }
  assert (Hf : forall c i, appends (I (Rec c)) (fetch c i)).
  { intros c i w. exists []. unfold fetch.
    destruct (find _ _); cbn [fst snd]; rewrite app_nil_r;
      (split; [reflexivity | auto]). }
  unfold print_result.
  repeat first
    [ apply (appends_seq I); [exact Hs | | intros ?]
    | apply Hp; reflexivity
    | match goal with
      | |- appends _ (fetch ?c ?i) => exact (Hf c i)
      end ].
Qed.

(** A sequential property that holds of the pieces of [main] holds of
    [main]. *)
Lemma main_invariant (I : forall A, Outcome A -> list Event -> Prop)
    srv environ :
  sequential I ->
  (forall A (a : A), I A (Ret a) []) ->
  (forall A e, I A (Raise e) []) ->
  (forall line, String.prefix "[ERROR]" line = false ->
                I unit (Ret tt) [Print line]) ->
  I unit (Exit 1)
    [Print "[ERROR] Missing NAUTOBOT_API_URL or NAUTOBOT_API_TOKEN environment variable."] ->
  (forall url token, I unit (Ret tt) [Connect url token]) ->
  (forall c (k : Call c), appends (I (Rec c)) (resolve srv k)) ->
  appends (I unit) (main srv environ).
Proof.
  intros Hs Hret Hraise Hprint Henv Hapi Hres.
  unfold main. cbv zeta.
  apply (appends_seq I); [exact Hs | | intros _].
  { destruct (_ || _).
    - intros w. eexists. split; [reflexivity | exact Henv].
    - intros w. exists []. cbn [ret fst snd]. rewrite app_nil_r.
      split; [reflexivity | apply Hret]. }
  apply (appends_seq I); [exact Hs | | intros _].
  { intros w. eexists. split; [reflexivity | apply Hapi]. }
  apply (appends_seq I);
    [exact Hs | apply (Hres _ (call_location_type _)) | intros lt].
  apply (appends_seq I);
    [exact Hs | apply (Hres _ (call_location _ _)) | intros loc].
  apply (appends_seq I);
    [exact Hs | apply (Hres _ (call_manufacturer _)) | intros mf].
  apply (appends_seq I);
    [exact Hs | apply (Hres _ (call_device_type _ _)) | intros dt].
  apply (appends_seq I);
    [exact Hs | apply (Hres _ (call_role _)) | intros r].
  apply (appends_seq I);
    [exact Hs | apply (Hres _ (call_device _ _ _ _)) | intros dev].
  now apply print_result_invariant.
Qed.

(** ** Exits and error lines *)

Lemma line_levels c (k : Call c) :
  (forall a, String.prefix "[ERROR]" (found_line k a) = false) /\
  String.prefix "[ERROR]" (creating_line k) = false /\
  (forall e, String.prefix "[ERROR]" (failure_line k e) = true).
Proof.
  destruct k; repeat split; reflexivity.
Qed.

Lemma announced_sequential : sequential (@announced).
Proof.
  split; [|split].
  - intros A B a e1 out e2 [_ N1] [X2 N2]. split.
    + intros code E. destruct (X2 code E) as (Hc & l & line & -> & Hl).
      split; [exact Hc|].
      exists (e1 ++ l)%list, line. split; [now rewrite app_assoc | exact Hl].
    + rewrite existsb_app. intros E. apply orb_true_iff in E as [E | E].
      * destruct (N1 E) as [code Hc]. discriminate.
      * now apply N2.
  - intros A B code e1 [X _]. split.
    + intros code' E. injection E as <-. exact (X code eq_refl).
    + intros _. now exists code.
  - intros A B e e1 [_ N]. split; [discriminate|].
    intros E. destruct (N E) as [code Hc]. discriminate.
Qed.

Lemma main_announced srv environ : appends (@announced unit) (main srv environ).
Proof.
  apply (main_invariant (@announced)).
  - apply announced_sequential.
  - intros A a. split; [discriminate | intros E; discriminate E].
  - intros A e. split; [discriminate | intros E; discriminate E].
  - intros line Hl. split; [discriminate|].
    cbn [existsb is_error_print]. rewrite Hl. discriminate.
  - split; [|now exists 1%Z].
    intros code E. injection E as <-. split; [reflexivity|].
    now exists [], "[ERROR] Missing NAUTOBOT_API_URL or NAUTOBOT_API_TOKEN environment variable.".
  - intros url token. split; [discriminate | intros E; discriminate E].
  - apply (resolve_invariant (@announced)).
    + intros c k a. split; [discriminate|].
      cbn [existsb is_error_print].
      rewrite (proj1 (line_levels c k)). discriminate.
    + intros c k a i. split; [discriminate|].
      cbn [existsb is_error_print].
      rewrite (proj1 (proj2 (line_levels c k))). discriminate.
    + intros c k e. split; [|now exists 1%Z].
      intros code E. injection E as <-. split; [reflexivity|].
      exists [Get c (key k); Print (creating_line k); Create c (payload k) None],
        (failure_line k e).
      split; [reflexivity | apply line_levels].
    + intros c k e. split; [discriminate | intros E; discriminate E].
Qed.

(** X5: whatever the server and the store, a run of [main] only appends to
    the log; when it exits the status is 1 and the last thing it did
    was to print an [[ERROR]] line; and it prints no [[ERROR]] line
    unless it exits: an uncaught exception is never announced by the
    script, and a run that returns has printed none. *)
Theorem exit_is_announced srv environ w :
  exists ext,
    log (snd (main srv environ w)) = (log w ++ ext)%list /\
    (forall code, fst (main srv environ w) = Exit code ->
       code = 1%Z /\
       exists l line, ext = (l ++ [Print line])%list /\
                      String.prefix "[ERROR]" line = true) /\
    (existsb is_error_print ext = true ->
     exists code, fst (main srv environ w) = Exit code).
Proof.
  exact (main_announced srv environ w).
Qed.

(** ** Lookups and creates of a run *)

Lemma looked_up_first_app e1 e2 :
  looked_up_first e1 -> looked_up_first e2 -> looked_up_first (e1 ++ e2).
Proof.
  intros H1 H2 l1 c d r l2 E.
  apply app_eq_app in E as (l & [[E1 E2] | [E1 E2]]).
  - destruct l as [|x l].
    + rewrite app_nil_r in E1. subst e1. simpl in E2.
      destruct (H2 [] c d r l2 (eq_sym E2)) as (l0 & q & line & E).
      now destruct l0.
    + simpl in E2. injection E2 as <- E2. subst l2.
      exact (H1 l1 c d r l E1).
  - destruct (H2 l c d r l2 E2) as (l0 & q & line & ->).
    exists (e1 ++ l0)%list, q, line. now rewrite E1, app_assoc.
Qed.

Lemma main_looked_up_first srv environ :
  appends (fun _ ext => looked_up_first ext) (main srv environ).
Proof.
  apply (main_invariant (fun A _ ext => looked_up_first ext)).
  - split; [|split]; trivial.
    intros A B a e1 _ e2. apply looked_up_first_app.
  - intros A a l1 c d r l2 E. now destruct l1.
  - intros A e l1 c d r l2 E. now destruct l1.
  - intros line _ l1 c d r l2 E.
    destruct l1 as [|? [|? ?]]; discriminate E.
  - intros l1 c d r l2 E. destruct l1 as [|? [|? ?]]; discriminate E.
  - intros url token l1 c d r l2 E.
    destruct l1 as [|? [|? ?]]; discriminate E.
  - apply (resolve_invariant (fun A _ ext => looked_up_first ext)).
    + intros c k a l1 c' d r l2 E.
      destruct l1 as [|? [|? [|? ?]]]; discriminate E.
    + intros c k a i l1 c' d r l2 E.
      destruct l1 as [|? [|? [|? [|? ?]]]]; try discriminate E.
      inversion E; subst. now exists [], (key k), (creating_line k).
    + intros c k e l1 c' d r l2 E.
      destruct l1 as [|? [|? [|? [|? [|? ?]]]]]; try discriminate E.
      inversion E; subst. now exists [], (key k), (creating_line k).
    + intros c k e l1 c' d r l2 E.
      destruct l1 as [|? [|? ?]]; discriminate E.
Qed.

(** X6: in no run does [main] send a create request blindly: each create
    request in the log comes right after a lookup on the same
    collection and the line announcing the creation. *)
Theorem create_follows_lookup srv environ w :
  exists ext,
    log (snd (main srv environ w)) = (log w ++ ext)%list /\
    forall l1 c d r l2,
      ext = (l1 ++ Create c d r :: l2)%list ->
      exists l0 q line, l1 = (l0 ++ [Get c q; Print line])%list.
Proof.
  exact (main_looked_up_first srv environ w).
Qed.

Lemma lookups_app l1 l2 : lookups (l1 ++ l2) = (lookups l1 ++ lookups l2)%list.
Proof.
  induction l1 as [|[] l1 IH]; simpl; now rewrite ?IH.
Qed.

Lemma creations_app l1 l2 :
  creations (l1 ++ l2) = (creations l1 ++ creations l2)%list.
Proof.
  induction l1 as [|[] l1 IH]; simpl; now rewrite ?IH.
Qed.

Lemma visits_bind {A B} L1 L2 (m : M A) (k : A -> M B) :
  appends (visits L1) m -> (forall a, appends (visits L2) (k a)) ->
  appends (visits (L1 ++ L2)) (bind m k).
Proof.
  intros Hm Hk.
  apply (appends_bind (visits L1) (visits L2) (visits (L1 ++ L2)));
    trivial.
  - intros a e1 out e2 (r1 & E1 & R1) (r2 & E2 & R2).
    rewrite (R1 a eq_refl), app_nil_r in E1. subst L1 L2.
    exists r2. split; [now rewrite lookups_app, app_assoc | exact R2].
  - intros code e1 (r1 & E1 & _). exists (r1 ++ L2)%list.
    split; [now rewrite E1, app_assoc | discriminate].
  - intros e e1 (r1 & E1 & _). exists (r1 ++ L2)%list.
    split; [now rewrite E1, app_assoc | discriminate].
Qed.

Lemma visits_resolve srv c (k : Call c) : appends (visits [c]) (resolve srv k).
Proof.
  intros w.
  destruct (resolve_resolution srv c k w); eexists;
    (split; [reflexivity|]); exists []; split; trivial.
Qed.

Lemma visits_nothing_sequential : sequential (fun A => @visits [] A).
Proof.
  split; [|split].
  - intros A B a e1 out e2 (r1 & E1 & _) (r2 & E2 & R2).
    symmetry in E1, E2.
    apply app_eq_nil in E1 as [E1 _], E2 as [E2 ->].
    exists []. rewrite lookups_app, E1, E2. now split.
  - intros A B code e1 (r1 & E1 & _). exists r1. split; [exact E1 | discriminate].
  - intros A B e e1 (r1 & E1 & _). exists r1. split; [exact E1 | discriminate].
Qed.

Lemma appends_ret {A} (P : Outcome A -> list Event -> Prop) (a : A) :
  P (Ret a) [] -> appends P (ret a).
Proof.
  intros H w. exists []. cbn [ret fst snd]. now rewrite app_nil_r.
Qed.

Lemma visits_print_result d : appends (visits []) (print_result d).
Proof.
  apply (print_result_invariant (fun A => @visits [] A)).
  - apply visits_nothing_sequential.
  - intros line _. now exists [].
  - intros A a. now exists [].
  - intros A e. exists []. split; [reflexivity | discriminate].
Qed.

Lemma main_visits srv environ : appends (visits stages) (main srv environ).
Proof.
  change stages
    with ([] ++ [] ++ [LocationTypes] ++ [Locations] ++ [Manufacturers]
          ++ [DeviceTypes] ++ [Roles] ++ [Devices] ++ [])%list.
  unfold main. cbv zeta.
  apply visits_bind; [| intros _].
  { destruct (_ || _).
    - intros w. eexists. split; [reflexivity|].
      exists []. split; [reflexivity | discriminate].
    - apply appends_ret. now exists []. }
  apply visits_bind; [| intros _].
  { intros w. eexists. split; [reflexivity|]. now exists []. }
  apply visits_bind;
    [apply (visits_resolve srv _ (call_location_type _)) | intros lt].
  apply visits_bind;
    [apply (visits_resolve srv _ (call_location _ _)) | intros loc].
  apply visits_bind;
    [apply (visits_resolve srv _ (call_manufacturer _)) | intros mf].
  apply visits_bind;
    [apply (visits_resolve srv _ (call_device_type _ _)) | intros dt].
  apply visits_bind;
    [apply (visits_resolve srv _ (call_role _)) | intros r].
  apply visits_bind;
    [apply (visits_resolve srv _ (call_device _ _ _ _)) | intros dev].
  apply visits_print_result.
Qed.

(** X7: in every run, [main] looks the collections up in the fixed order
    location types, locations, manufacturers, device types, roles,
    devices, one lookup each: the lookups of a run are the first
    stages, without a gap, and all six when the run returns. *)
Theorem lookups_follow_stages srv environ w :
  exists ext,
    log (snd (main srv environ w)) = (log w ++ ext)%list /\
    exists rest,
      stages = (lookups ext ++ rest)%list /\
      (forall a, fst (main srv environ w) = Ret a -> rest = []).
Proof.
  exact (main_visits srv environ w).
Qed.

Lemma no_blind_create_app e1 e2 :
  no_blind_create e1 -> no_blind_create e2 -> no_blind_create (e1 ++ e2).
Proof.
  intros H1 H2 c. rewrite creations_app, lookups_app, !count_occ_app.
  specialize (H1 c). specialize (H2 c). lia.
Qed.

Lemma main_no_blind_create srv environ :
  appends (fun _ ext => no_blind_create ext) (main srv environ).
Proof.
  apply (main_invariant (fun A _ ext => no_blind_create ext)).
  - split; [|split]; trivial.
    intros A B a e1 _ e2. apply no_blind_create_app.
  - intros A a c. simpl. lia.
  - intros A e c. simpl. lia.
  - intros line _ c. simpl. lia.
  - intros c. simpl. lia.
  - intros url token c. simpl. lia.
  - apply (resolve_invariant (fun A _ ext => no_blind_create ext));
      intros c k ? ? c' || intros c k ? c';
      cbn [creations lookups count_occ];
      destruct (Collection_eq_dec c c'); lia.
Qed.

(** X8: in every run, each collection is looked up at most once and
    receives at most as many create requests as lookups: [main] never
    sends two create requests to the same collection. *)
Theorem once_per_collection srv environ w :
  exists ext,
    log (snd (main srv environ w)) = (log w ++ ext)%list /\
    forall c,
      (count_occ Collection_eq_dec (creations ext) c
       <= count_occ Collection_eq_dec (lookups ext) c <= 1)%nat.
Proof.
  destruct (main_visits srv environ w) as (ext & L & rest & E & _).
  destruct (main_no_blind_create srv environ w) as (ext' & L' & H).
  rewrite L in L'. apply app_inv_head in L'. subst ext'.
  exists ext. split; [exact L|]. intros c. split; [apply H|].
  assert (S : count_occ Collection_eq_dec stages c = 1%nat)
    by (destruct c; reflexivity).
  rewrite E, count_occ_app in S. lia.
Qed.

(** ** What a run that returns has achieved *)

Lemma resolve_ret_extends srv c (k : Call c) w a w' :
  resolve srv k w = (Ret a, w') ->
  In a (items c (remote w')) /\
  (forall f v, In (f, v) (key k) -> attr c a f = Some v) /\
  extends (remote w) (remote w').
Proof.
  intros H. destruct (resolve_ret_keyed srv c k w a w' H) as [Hin Hattr].
  repeat split; trivial.
  generalize (conservative_resolve srv c k w). rewrite H.
  now intros [X _].
Qed.

Lemma main_provisions srv environ w w1 :
  main srv environ w = (Ret tt, w1) -> switch_provisioned (remote w1).
Proof.
  intros Hrun. unfold main in Hrun. cbv zeta in Hrun.
  apply bind_ret_inv in Hrun as ([] & wa & _ & Hrun).
  apply bind_ret_inv in Hrun as ([] & w0 & _ & Hrun).
  apply bind_ret_inv in Hrun as (lt & w1' & H1 & Hrun).
  apply bind_ret_inv in Hrun as (loc & w2 & H2 & Hrun).
  apply bind_ret_inv in Hrun as (mf & w3 & H3 & Hrun).
  apply bind_ret_inv in Hrun as (dt & w4 & H4 & Hrun).
  apply bind_ret_inv in Hrun as (r & w5 & H5 & Hrun).
  apply bind_ret_inv in Hrun as (dev & w6 & H6 & Hrun).
  apply (resolve_ret_extends srv _ (call_location_type _)) in H1
    as (I1 & A1 & X1).
  apply (resolve_ret_extends srv _ (call_location _ _)) in H2
    as (I2 & A2 & X2).
  apply (resolve_ret_extends srv _ (call_manufacturer _)) in H3
    as (I3 & A3 & X3).
  apply (resolve_ret_extends srv _ (call_device_type _ _)) in H4
    as (I4 & A4 & X4).
  apply (resolve_ret_extends srv _ (call_role _)) in H5
    as (I5 & A5 & X5).
  apply (resolve_ret_extends srv _ (call_device _ _ _ _)) in H6
    as (I6 & A6 & X6).
  apply print_result_inv in Hrun as (l' & r' & t' & _ & _ & _ & ->).
  cbn [remote emits].
  exists lt, loc, mf, dt, r, dev.
  assert (N1 := A1 "name" _ (or_introl eq_refl)).
  assert (N2 := A2 "name" _ (or_introl eq_refl)).
  assert (N3 := A3 "name" _ (or_introl eq_refl)).
  assert (N4 := A4 "model" _ (or_introl eq_refl)).
  assert (M4 := A4 "manufacturer" _ (or_intror (or_introl eq_refl))).
  assert (N5 := A5 "name" _ (or_introl eq_refl)).
  assert (N6 := A6 "name" _ (or_introl eq_refl)).
  assert (L6 := A6 "location" _ (or_intror (or_introl eq_refl))).
  cbn in N1, N2, N3, N4, M4, N5, N6, L6.
  injection N1 as N1. injection N2 as N2. injection N3 as N3.
  injection N4 as N4. injection M4 as M4. injection N5 as N5.
  injection N6 as N6. injection L6 as L6.
  assert (J1 : In lt (items LocationTypes (remote w6))).
  { apply (extends_In _ _ LocationTypes _ X6), (extends_In _ _ LocationTypes _ X5),
      (extends_In _ _ LocationTypes _ X4), (extends_In _ _ LocationTypes _ X3),
      (extends_In _ _ LocationTypes _ X2), I1. }
  assert (J2 : In loc (items Locations (remote w6))).
  { apply (extends_In _ _ Locations _ X6), (extends_In _ _ Locations _ X5),
      (extends_In _ _ Locations _ X4), (extends_In _ _ Locations _ X3), I2. }
  assert (J3 : In mf (items Manufacturers (remote w6))).
  { apply (extends_In _ _ Manufacturers _ X6),
      (extends_In _ _ Manufacturers _ X5),
      (extends_In _ _ Manufacturers _ X4), I3. }
  assert (J4 : In dt (items DeviceTypes (remote w6))).
  { apply (extends_In _ _ DeviceTypes _ X6), (extends_In _ _ DeviceTypes _ X5),
      I4. }
  assert (J5 : In r (items Roles (remote w6))).
  { apply (extends_In _ _ Roles _ X6), I5. }
  cbn [items] in *.
  repeat split; assumption.
Qed.

(** X9: whenever [main] returns, whatever the server held before and
    whichever of the records were found or created, the server holds a
    location type "Campus", a location "MyCampusLocation", a
    manufacturer "Cisco", a device type "C9300-48P" of that
    manufacturer, a role "Access Switch" and a device "myswitch001" at
    that location. *)
Theorem successful_run_provisions srv environ w w1 :
  main srv environ w = (Ret tt, w1) -> switch_provisioned (remote w1).
Proof.
  apply main_provisions.
Qed.

Lemma successful_run_provisions_witness :
  switch_provisioned (remote (snd (main (refusing DeviceTypes) env_ok fresh))).
Proof.
  apply (successful_run_provisions (refusing DeviceTypes) env_ok fresh).
  reflexivity.
Defined.

(** ** Keys of the other resolvers *)

(** X10: the location resolver looks up by name alone and, on its found
    path, does not look at its [location_type] argument: a location of
    that name is returned as it is, whatever its own type and whatever
    location type was passed, after one lookup and one line and without
    a create. *)
Theorem existing_location_ignores_type srv location_name w l :
  srv_query_error srv Locations [("name", VStr location_name)] = None ->
  found Locations [("name", VStr location_name)] (remote w) = [l] ->
  forall location_type,
    get_or_create_location srv location_name location_type w =
      (Ret l,
       emits [Get Locations [("name", VStr location_name)];
              Print ("[INFO] Found existing location: " ++ loc_name l)] w).
Proof.
  intros Hq Hf location_type.
  change (get_or_create_location srv location_name location_type)
    with (resolve srv (call_location location_name location_type)).
  now rewrite (resolve_found srv Locations
                 (call_location location_name location_type) w l Hq Hf),
    emit_emit.
Qed.

Lemma existing_location_ignores_type_witness :
  get_or_create_location permissive "MyCampusLocation"
      {| lt_id := 42; lt_name := "Building"; lt_description := "";
         lt_content_types := [] |} provisioned =
    (Ret my_campus_location,
     emits [Get Locations [("name", VStr "MyCampusLocation")];
            Print "[INFO] Found existing location: MyCampusLocation"]
       provisioned).
Proof.
  apply (existing_location_ignores_type permissive "MyCampusLocation"
           provisioned my_campus_location);
    reflexivity.
Defined.

(** X11: the existence check of the device-type resolver is keyed on the
    pair (model, manufacturer): when every device type of that model
    belongs to another manufacturer, none is taken for a match and the
    resolver goes through its creating branch. *)
Theorem device_type_keyed_on_model_and_manufacturer srv device_type_model
    manufacturer w :
  srv_query_error srv DeviceTypes
    [("model", VStr device_type_model);
     ("manufacturer", VRef (man_id manufacturer))] = None ->
  (forall d, In d (device_types (remote w)) ->
             dt_model d = device_type_model ->
             dt_manufacturer d <> man_id manufacturer) ->
  creates srv (call_device_type device_type_model manufacturer) w
    (get_or_create_device_type srv device_type_model manufacturer w).
Proof.
  intros Hq Hd.
  apply (resolve_missing srv DeviceTypes
           (call_device_type device_type_model manufacturer) w Hq).
  cbn [key]. unfold found. apply filter_none. intros d Hin.
  unfold matches. simpl.
  destruct (String.eqb_spec (dt_model d) device_type_model) as [E|];
    [|reflexivity].
  destruct (N.eqb_spec (dt_manufacturer d) (man_id manufacturer)) as [E'|];
    [|reflexivity].
  now destruct (Hd d Hin E).
Qed.

Lemma device_type_keyed_on_model_and_manufacturer_witness :
  creates permissive (call_device_type "C9300-48P" juniper) provisioned
    (get_or_create_device_type permissive "C9300-48P" juniper provisioned).
Proof.
  apply (device_type_keyed_on_model_and_manufacturer permissive "C9300-48P"
           juniper provisioned eq_refl).
  intros d [<- | []] _. discriminate.
Defined.

(** On that store the create goes through: the model is saved a second
    time, under the other manufacturer. *)
Example model_created_under_second_manufacturer :
  get_or_create_device_type permissive "C9300-48P" juniper provisioned =
    (Ret {| dt_id := 7; dt_model := "C9300-48P"; dt_manufacturer := 8 |},
     {| remote := stored DeviceTypes
                    {| dt_id := 7; dt_model := "C9300-48P";
                       dt_manufacturer := 8 |} (remote provisioned);
        log := [Get DeviceTypes [("model", VStr "C9300-48P");
                                 ("manufacturer", VRef 8)];
                Print "[INFO] Creating device type 'C9300-48P' for manufacturer 'Juniper'...";
                Create DeviceTypes [("model", VStr "C9300-48P");
                                    ("manufacturer", VRef 8)] (Some 7)] |}).
Proof. reflexivity. Qed.

(** ** The run-level properties on concrete runs *)

Lemma exit_is_announced_witness :
  exists l line,
    log (snd (main (rejecting Roles) env_ok fresh)) = (l ++ [Print line])%list /\
    String.prefix "[ERROR]" line = true.
Proof.
  destruct (exit_is_announced (rejecting Roles) env_ok fresh)
    as (ext & L & X & _).
  destruct (X 1%Z eq_refl) as (_ & l & line & E & Hl).
  exists l, line. split; [|exact Hl].
  rewrite L, E. reflexivity.
Defined.

Lemma create_follows_lookup_witness :
  exists l0 q line,
    [Connect (Some "http://localhost:8080") (Some "0123456789abcdef");
     Get LocationTypes [("name", VStr "Campus")];
     Print "[INFO] Creating location type 'Campus'..."]
    = (l0 ++ [Get LocationTypes q; Print line])%list.
Proof.
  destruct (create_follows_lookup (rejecting LocationTypes) env_ok fresh)
    as (ext & L & H).
  apply (H _ LocationTypes
           [("name", VStr "Campus");
            ("description", VStr "Created by script for Campus");
            ("content_types", VList ["dcim.device"])]
           None
           [Print "[ERROR] Failed to create location type 'Campus': 400 Bad Request"]).
  symmetry. exact L.
Defined.

Lemma lookups_follow_stages_witness :
  lookups (log (snd (main permissive env_ok fresh))) = stages.
Proof.
  destruct (lookups_follow_stages permissive env_ok fresh)
    as (ext & L & rest & E & R).
  rewrite (R tt eq_refl), app_nil_r in E.
  rewrite L. symmetry. exact E.
Defined.
